(** * The CSV search client: session-scoped index names, search and history

    A shallow embedding of the Vue component of the repository's front end.
    Two revisions of the component are in the sources: the one with session
    support (the unnamed part, referred to below as the session revision) and
    the earlier one, [src/frontend/js/app.js].  The methods of the session
    revision are embedded at top level, those of the earlier revision that
    differ are in [Module Frontend].

    The component's [data()] is a record, every method is a function from the
    record (and what the browser or the server hands to the method) to the new
    record and the list of HTTP requests the method sent. *)

From Stdlib Require Import ZArith NArith Ascii String List Bool HexadecimalString.
From Stdlib Require Import Reals Lra.
From stdpp Require Import base tactics option list gmap strings pretty.

Local Open Scope string_scope.

(** ** JavaScript strings

    A string is a sequence of code units.  The embedding keeps the code units
    U+0000 to U+00FF, one [ascii] each; on those the library functions used by
    the component are the ones below.  The texts of the alerts are constants
    that no method inspects. *)

Module Js.

Definition code (c : ascii) : N := N_of_ascii c.

Definition between (lo hi c : ascii) : bool :=
  (code lo <=? code c)%N && (code c <=? code hi)%N.

Fixpoint map (f : ascii -> ascii) (s : string) : string :=
  match s with
  | EmptyString => EmptyString
  | String c s' => String (f c) (map f s')
  end.

Fixpoint all (p : ascii -> bool) (s : string) : bool :=
  match s with
  | EmptyString => true
  | String c s' => p c && all p s'
  end.

Fixpoint drop (n : nat) (s : string) : string :=
  match n, s with
  | O, _ => s
  | S _, EmptyString => EmptyString
  | S n', String _ s' => drop n' s'
  end.

(** A string in a condition: only the empty string is falsy. *)
Definition truthy (s : string) : bool := negb (s =? "").

(** A value that is [null] or a string, in a condition. *)
Definition truthy_opt (o : option string) : bool :=
  match o with
  | None => false
  | Some s => truthy s
  end.

(** [x || d] on a value that is [undefined] or a string. *)
Definition or_default (o : option string) (d : string) : string :=
  match o with
  | Some s => if truthy s then s else d
  | None => d
  end.

(** [String.prototype.toLowerCase] on one code unit below U+0100: the letters
    A-Z, and the Latin-1 capitals U+00C0-U+00DE without the multiplication
    sign U+00D7, move up by 32. *)
Definition lower_unit (c : ascii) : ascii :=
  if between "A" "Z" c
     || ((192 <=? code c)%N && (code c <=? 222)%N && negb (code c =? 215)%N)
  then ascii_of_N (code c + 32)
  else c.

Definition toLowerCase (s : string) : string := map lower_unit s.

(** [s.replace(pat, rep)] with a string pattern: only the first occurrence is
    replaced.  ([rep] holds no dollar sign in this component.) *)
Fixpoint replace_first (pat rep s : string) : string :=
  if String.prefix pat s then rep +:+ drop (String.length pat) s
  else match s with
       | EmptyString => EmptyString
       | String c s' => String c (replace_first pat rep s')
       end.

(** White space and line terminators of [String.prototype.trim], below
    U+0100: TAB, LF, VT, FF, CR, SP and NBSP. *)
Definition is_space (c : ascii) : bool :=
  ((9 <=? code c)%N && (code c <=? 13)%N) || (code c =? 32)%N || (code c =? 160)%N.

Fixpoint trimStart (s : string) : string :=
  match s with
  | EmptyString => EmptyString
  | String c s' => if is_space c then trimStart s' else s
  end.

Fixpoint trimEnd (s : string) : string :=
  match s with
  | EmptyString => EmptyString
  | String c s' =>
      match trimEnd s' with
      | EmptyString => if is_space c then EmptyString else String c EmptyString
      | r => String c r
      end
  end.

Definition trim (s : string) : string := trimEnd (trimStart s).

(** *** The pattern of the session prefix

    A sequence of one-character items anchored at the start, so matching never
    backtracks. *)

Inductive item :=
  | Lit (c : ascii)       (* a literal character *)
  | Hex.                  (* [0-9a-fA-F] *)

Definition is_hex (c : ascii) : bool :=
  between "0" "9" c || between "a" "f" c || between "A" "F" c.

Definition item_ok (i : item) (c : ascii) : bool :=
  match i with
  | Lit d => Ascii.eqb d c
  | Hex => is_hex c
  end.

(** Match the items at the start of [s]; the rest of [s] after the match. *)
Fixpoint match_start (pat : list item) (s : string) : option string :=
  match pat, s with
  | [], _ => Some s
  | _ :: _, EmptyString => None
  | i :: pat', String c s' => if item_ok i c then match_start pat' s' else None
  end.

(** [s.replace(/^pat/, rep)]: anchored at the start, no flag, so at most one
    replacement; without a match the string comes back as it is. *)
Definition replace_anchored (pat : list item) (rep s : string) : string :=
  match match_start pat s with
  | Some rest => rep +:+ rest
  | None => s
  end.

Definition lits (s : string) : list item := List.map Lit (list_ascii_of_string s).

End Js.

(** ** Index names *)

(** The class [[a-z0-9_-]]. *)
Definition name_char (c : ascii) : bool :=
  Js.between "a" "z" c || Js.between "0" "9" c || Ascii.eqb c "_" || Ascii.eqb c "-".

(** [s.replace(/[^a-z0-9_-]/g, '_')]: with the [g] flag every character
    outside the class is replaced. *)
Definition sanitize (s : string) : string :=
  Js.map (fun c => if name_char c then c else "_"%char) s.

(** [handleFileSelect], its two lines on the name: the lower-casing and the
    replacement are the normalisation of a raw name, applied there to the file
    name without its first [.csv]. *)
Definition normalize (raw : string) : string := sanitize (Js.toLowerCase raw).

Definition autoIndexName (file_name : string) : string :=
  normalize (Js.replace_first ".csv" "" file_name).

(** The pattern of [loadIndices]:
    [^temp-[0-9a-fA-F]{8}-[0-9a-fA-F]{4}-[0-9a-fA-F]{4}-[0-9a-fA-F]{4}-[0-9a-fA-F]{12}-] *)
Definition session_prefix : list Js.item :=
  Js.lits "temp-"
  ++ repeat Js.Hex 8 ++ [Js.Lit "-"] ++ repeat Js.Hex 4 ++ [Js.Lit "-"]
  ++ repeat Js.Hex 4 ++ [Js.Lit "-"] ++ repeat Js.Hex 4 ++ [Js.Lit "-"]
  ++ repeat Js.Hex 12 ++ [Js.Lit "-"].

(** The name shown for an index: [index.name.replace(/^temp-.../, '')]. *)
Definition display_name (identifier : string) : string :=
  Js.replace_anchored session_prefix "" identifier.

(** The shape 8-4-4-4-12 of a UUID, position by position: 36 characters,
    hyphens at 8, 13, 18 and 23, hexadecimal digits elsewhere. *)
Fixpoint uuid_from (i : nat) (s : string) : bool :=
  match s with
  | EmptyString => Nat.eqb i 36
  | String c s' =>
      (if existsb (Nat.eqb i) [8; 13; 18; 23]%nat
       then Ascii.eqb c "-" else Js.is_hex c)
      && uuid_from (S i) s'
  end.

Definition uuid_shaped (s : string) : bool := uuid_from 0 s.

(** An identifier of the form [temp-<UUID>-<rest>]. *)
Definition has_session_prefix (identifier : string) : Prop :=
  exists u rest, uuid_shaped u = true /\ identifier = "temp-" +:+ u +:+ "-" +:+ rest.

(** Modelled from the spec: the server side that composes an index identifier
    is not among the sources.  Section 3 gives the composition
    [temp-<session_token>-<user_name>], section 4.1 the contract of
    [resolve]: the raw name is normalised (the same two steps the client
    applies), an empty result is an [InvalidNameError]. *)
Inductive resolve_error := InvalidNameError.

Definition compose (session_token user_name : string) : string :=
  "temp-" +:+ session_token +:+ "-" +:+ user_name.

Definition resolve (session_token raw_name : string) : resolve_error + string :=
  let user_name := normalize raw_name in
  if user_name =? "" then inl InvalidNameError
  else inr (compose session_token user_name).

(** ** The data of the component *)

(** Numbers from the server and from the form are only stored, sent back and
    printed by the methods below; a number is kept as the text that the
    conversion to a string gives for it. *)
Record number := Num { number_text : string }.

(** A [File] of the file input: its [name] and [type]. *)
Record file := { file_name : string; file_type : string }.

Record column := { col_name : string; col_type : string }.

(** An element of [response.data.indices], as the server lists it. *)
Record listed_index := { listed_name : string; listed_columns : list column }.

(** An element of [this.indices]: the listed index with [full_name] added and
    [name] replaced by the name to display. *)
Record index_entry := { name : string; full_name : string; columns : list column }.

(** The body of a successful search reply; a document is kept as its JSON
    text. *)
Record search_data := {
  data_results : list string;
  total_results : number;
  search_time_seconds : number;
  aggregations : list (string * list (string * number))
}.

Record history_entry := {
  query : string;
  time : number;
  results : number;
  timestamp : Z                       (* [new Date()], in milliseconds *)
}.

Record alert_box := { message : string; type : string }.

(** The configuration handed to [new Chart]. *)
Record chart_config := { labels : list string; chart_data : list number }.

Record state := {
  selectedFile : option file;
  indexName : string;
  indices : list index_entry;
  selectedIndex : string;
  searchQuery : string;
  searchSize : number;
  searchResults : list string;
  searchMetrics : option search_data;
  lastSearchQuery : string;
  searchHistory : list history_entry;
  sessionId : option string;
  uploading : bool;
  searching : bool;
  alert : alert_box;
  chart : option chart_config
}.

(** [data()] *)
Definition data : state := {|
  selectedFile := None;
  indexName := "";
  indices := [];
  selectedIndex := "";
  searchQuery := "";
  searchSize := Num "10";
  searchResults := [];
  searchMetrics := None;
  lastSearchQuery := "";
  searchHistory := [];
  sessionId := None;
  uploading := false;
  searching := false;
  alert := {| message := ""; type := "success" |};
  chart := None
|}.

(** Assignments to one field of [this]. *)
Definition set_selectedFile v st :=
  Build_state v (indexName st) (indices st) (selectedIndex st) (searchQuery st)
    (searchSize st) (searchResults st) (searchMetrics st) (lastSearchQuery st)
    (searchHistory st) (sessionId st) (uploading st) (searching st) (alert st) (chart st).
Definition set_indexName v st :=
  Build_state (selectedFile st) v (indices st) (selectedIndex st) (searchQuery st)
    (searchSize st) (searchResults st) (searchMetrics st) (lastSearchQuery st)
    (searchHistory st) (sessionId st) (uploading st) (searching st) (alert st) (chart st).
Definition set_indices v st :=
  Build_state (selectedFile st) (indexName st) v (selectedIndex st) (searchQuery st)
    (searchSize st) (searchResults st) (searchMetrics st) (lastSearchQuery st)
    (searchHistory st) (sessionId st) (uploading st) (searching st) (alert st) (chart st).
Definition set_selectedIndex v st :=
  Build_state (selectedFile st) (indexName st) (indices st) v (searchQuery st)
    (searchSize st) (searchResults st) (searchMetrics st) (lastSearchQuery st)
    (searchHistory st) (sessionId st) (uploading st) (searching st) (alert st) (chart st).
Definition set_searchQuery v st :=
  Build_state (selectedFile st) (indexName st) (indices st) (selectedIndex st) v
    (searchSize st) (searchResults st) (searchMetrics st) (lastSearchQuery st)
    (searchHistory st) (sessionId st) (uploading st) (searching st) (alert st) (chart st).
Definition set_searchSize v st :=
  Build_state (selectedFile st) (indexName st) (indices st) (selectedIndex st) (searchQuery st)
    v (searchResults st) (searchMetrics st) (lastSearchQuery st)
    (searchHistory st) (sessionId st) (uploading st) (searching st) (alert st) (chart st).
Definition set_searchResults v st :=
  Build_state (selectedFile st) (indexName st) (indices st) (selectedIndex st) (searchQuery st)
    (searchSize st) v (searchMetrics st) (lastSearchQuery st)
    (searchHistory st) (sessionId st) (uploading st) (searching st) (alert st) (chart st).
Definition set_searchMetrics v st :=
  Build_state (selectedFile st) (indexName st) (indices st) (selectedIndex st) (searchQuery st)
    (searchSize st) (searchResults st) v (lastSearchQuery st)
    (searchHistory st) (sessionId st) (uploading st) (searching st) (alert st) (chart st).
Definition set_lastSearchQuery v st :=
  Build_state (selectedFile st) (indexName st) (indices st) (selectedIndex st) (searchQuery st)
    (searchSize st) (searchResults st) (searchMetrics st) v
    (searchHistory st) (sessionId st) (uploading st) (searching st) (alert st) (chart st).
Definition set_searchHistory v st :=
  Build_state (selectedFile st) (indexName st) (indices st) (selectedIndex st) (searchQuery st)
    (searchSize st) (searchResults st) (searchMetrics st) (lastSearchQuery st)
    v (sessionId st) (uploading st) (searching st) (alert st) (chart st).
Definition set_sessionId v st :=
  Build_state (selectedFile st) (indexName st) (indices st) (selectedIndex st) (searchQuery st)
    (searchSize st) (searchResults st) (searchMetrics st) (lastSearchQuery st)
    (searchHistory st) v (uploading st) (searching st) (alert st) (chart st).
Definition set_uploading v st :=
  Build_state (selectedFile st) (indexName st) (indices st) (selectedIndex st) (searchQuery st)
    (searchSize st) (searchResults st) (searchMetrics st) (lastSearchQuery st)
    (searchHistory st) (sessionId st) v (searching st) (alert st) (chart st).
Definition set_searching v st :=
  Build_state (selectedFile st) (indexName st) (indices st) (selectedIndex st) (searchQuery st)
    (searchSize st) (searchResults st) (searchMetrics st) (lastSearchQuery st)
    (searchHistory st) (sessionId st) (uploading st) v (alert st) (chart st).
Definition set_alert v st :=
  Build_state (selectedFile st) (indexName st) (indices st) (selectedIndex st) (searchQuery st)
    (searchSize st) (searchResults st) (searchMetrics st) (lastSearchQuery st)
    (searchHistory st) (sessionId st) (uploading st) (searching st) v (chart st).
Definition set_chart v st :=
  Build_state (selectedFile st) (indexName st) (indices st) (selectedIndex st) (searchQuery st)
    (searchSize st) (searchResults st) (searchMetrics st) (lastSearchQuery st)
    (searchHistory st) (sessionId st) (uploading st) (searching st) (alert st) v.

(** ** What the methods send and receive *)

Inductive request :=
  | PostUploadCsv (f : file) (index_name : string) (session_id : option string)
  | GetIndices (session_id : option string)
  | PostSearch (index_name query : string) (size : number)
               (agg_fields : list string) (session_id : option string).

(** The outcome of [axios.post('/api/upload-csv', ...)]: rejected, with the
    [detail] of the error reply when there is one, or answered with
    [stats.success_count] and [stats.indexing_time_seconds]. *)
Inductive upload_reply :=
  | UploadFailed (detail : option string)
  | UploadDone (success_count indexing_time_seconds : number).

(** The outcome of [axios.get('/api/indices...')]. *)
Inductive indices_reply :=
  | IndicesFailed
  | IndicesDone (listed : list listed_index).

(** The outcome of [fetch('/api/search', ...)]: an exception with its
    [message], a reply that is not [ok] with the [detail] of its body, or the
    body of a reply that is [ok]. *)
Inductive search_reply :=
  | SearchThrew (error_message : option string)
  | SearchRefused (detail : option string)
  | SearchDone (d : search_data).

(** The browser, as far as [generateUUID] reads it: what [crypto.randomUUID()]
    returns where it exists, and the successive values of
    [Math.random() * 16 | 0]. *)
Record browser := { randomUUID : option string; draws : nat -> N }.

(** ** The methods of the session revision *)

(** [showAlert(message, type)].  The timer it starts is the event
    [AlertExpired] of the runs below. *)
Definition showAlert (msg ty : string) (st : state) : state :=
  set_alert {| message := msg; type := ty |} st.

Definition alertExpired (st : state) : state :=
  set_alert {| message := ""; type := type (alert st) |} st.

(** [handleFileSelect(event)], [f] being [event.target.files[0]]. *)
Definition handleFileSelect (f : option file) (st : state) : state :=
  match f with
  | Some fl =>
      if file_type fl =? "text/csv" then
        let st := set_selectedFile (Some fl) st in
        let baseName := Js.toLowerCase (Js.replace_first ".csv" "" (file_name fl)) in
        let st := set_indexName (sanitize baseName) st in
        showAlert "Archivo CSV seleccionado correctamente" "success" st
      else showAlert "Por favor selecciona un archivo CSV válido" "error" st
  | None => showAlert "Por favor selecciona un archivo CSV válido" "error" st
  end.

(** [v.toString(16)] *)
Definition toString16 (v : N) : string :=
  HexadecimalString.NilZero.string_of_uint (N.to_hex_uint v).

(** The callback of the fall-back generator on the character [c], [r] being
    the value drawn. *)
Definition uuid_digit (c : ascii) (r : N) : string :=
  let v := if Ascii.eqb c "x" then r else N.lor (N.land r 3) 8 in
  toString16 v.

(** [template.replace(/[xy]/g, callback)]: one draw for each [x] and [y],
    from left to right; [k] draws were made before. *)
Fixpoint fill (template : string) (k : nat) (draw : nat -> N) : string :=
  match template with
  | EmptyString => EmptyString
  | String c t =>
      if Ascii.eqb c "x" || Ascii.eqb c "y"
      then uuid_digit c (draw k) +:+ fill t (S k) draw
      else String c (fill t k draw)
  end.

(** [generateUUID()] *)
Definition generateUUID (b : browser) : string :=
  match randomUUID b with
  | Some u => u
  | None => fill "xxxxxxxx-xxxx-4xxx-yxxx-xxxxxxxxxxxx" 0 (draws b)
  end.

(** [initializeSession()], on the component and [sessionStorage]. *)
Definition initializeSession (b : browser) (st : state) (storage : gmap string string)
  : state * gmap string string :=
  let sessionId := storage !! "userSessionId" in
  if negb (Js.truthy_opt sessionId) then
    let sessionId := generateUUID b in
    (set_sessionId (Some sessionId) st, <["userSessionId" := sessionId]> storage)
  else (set_sessionId sessionId st, storage).

(** The callback of [response.data.indices.map] in [loadIndices]. *)
Definition to_entry (index : listed_index) : index_entry :=
  {| name := display_name (listed_name index);
     full_name := listed_name index;
     columns := listed_columns index |}.

(** [loadIndices()] *)
Definition loadIndices (reply : indices_reply) (st : state) : state * list request :=
  if negb (Js.truthy_opt (sessionId st)) then (st, [])
  else
    let sent := [GetIndices (sessionId st)] in
    match reply with
    | IndicesDone listed =>
        let st := set_indices (List.map to_entry listed) st in
        match indices st with
        | first :: _ =>
            if negb (Js.truthy (selectedIndex st))
            then (set_selectedIndex (full_name first) st, sent)
            else (st, sent)
        | [] => (st, sent)
        end
    | IndicesFailed =>
        (showAlert "Error cargando la lista de índices" "error" st, sent)
    end.

(** [uploadCSV()]; [reloaded] answers the [loadIndices] that follows a
    successful upload.  (The file input of the page, emptied after the upload,
    is not part of the data.) *)
Definition uploadCSV (reply : upload_reply) (reloaded : indices_reply) (st : state)
  : state * list request :=
  if negb (Js.truthy_opt (sessionId st)) then
    (showAlert "Error: No se pudo iniciar la sesión. Intenta recargar la página." "error" st, [])
  else
    match selectedFile st with
    | None =>
        (showAlert "Selecciona un archivo y especifica un nombre de índice" "error" st, [])
    | Some fl =>
        if negb (Js.truthy (indexName st)) then
          (showAlert "Selecciona un archivo y especifica un nombre de índice" "error" st, [])
        else
          let st := set_uploading true st in
          let sent := [PostUploadCsv fl (indexName st) (sessionId st)] in
          match reply with
          | UploadDone success_count indexing_time_seconds =>
              let st :=
                showAlert ("CSV cargado exitosamente. " +:+ number_text success_count
                           +:+ " documentos indexados en "
                           +:+ number_text indexing_time_seconds +:+ "s")
                          "success" st in
              let st := set_selectedFile None st in
              let st := set_indexName "" st in
              let '(st, sent') := loadIndices reloaded st in
              (set_uploading false st, (sent ++ sent')%list)
          | UploadFailed detail =>
              let st :=
                showAlert (Js.or_default detail "Error cargando el archivo CSV") "error" st in
              (set_uploading false st, sent)
          end
    end.

(** [selectIndex(index)] *)
Definition selectIndex (index : index_entry) (st : state) : state :=
  set_selectedIndex (full_name index) st.

(** The expression that computes [textColumns] in [performSearch]. *)
Definition textColumns (st : state) : list string :=
  match List.find (fun i => full_name i =? selectedIndex st) (indices st) with
  | Some i =>
      List.map col_name (List.filter (fun c => col_type c =? "text") (columns i))
  | None => []
  end.

(** The two statements that keep the history: [push], then [shift] once the
    length is above 10. *)
Definition remember (e : history_entry) (h : list history_entry) : list history_entry :=
  let h := (h ++ [e])%list in
  if (10 <? length h)%nat then tail h else h.

(** [performSearch()] up to the request: the guards, the two assignments and
    the body handed to [fetch]. *)
Definition performSearch_begin (st : state) : state * list request :=
  if negb (Js.truthy_opt (sessionId st)) then
    (showAlert "Error: No se pudo iniciar la sesión. Intenta recargar la página." "error" st, [])
  else if negb (Js.truthy (selectedIndex st)) || negb (Js.truthy (Js.trim (searchQuery st))) then
    (showAlert "Selecciona un índice y escribe una consulta" "error" st, [])
  else
    let st := set_searching true st in
    let st := set_lastSearchQuery (searchQuery st) st in
    (st, [PostSearch (selectedIndex st) (searchQuery st) (searchSize st)
                     (textColumns st) (sessionId st)]).

(** [performSearch()] from the reply on: what follows [await fetch] and
    [await response.json()], with [catch] and [finally].  [st] is the data
    as they are when the reply is handled: the query recorded in the history
    is read from the form then.  [now] is the value of [new Date()]. *)
Definition performSearch_reply (reply : search_reply) (now : Z) (st : state) : state :=
  let st :=
    match reply with
    | SearchDone d =>
        let st := set_searchResults (data_results d) st in
        let st := set_searchMetrics (Some d) st in
        let entry := {| query := searchQuery st;
                        time := search_time_seconds d;
                        results := total_results d;
                        timestamp := now |} in
        let st := set_searchHistory (remember entry (searchHistory st)) st in
        showAlert ("Búsqueda completada: " +:+ number_text (total_results d)
                   +:+ " resultados en " +:+ number_text (search_time_seconds d) +:+ "s")
                  "success" st
    | SearchRefused detail =>
        let thrown := Js.or_default detail "Error realizando la búsqueda" in
        showAlert (Js.or_default (Some thrown) "Error realizando la búsqueda") "error" st
    | SearchThrew error_message =>
        showAlert (Js.or_default error_message "Error realizando la búsqueda") "error" st
    end in
  set_searching false st.

(** [performSearch()] as one call during which nothing else touches the
    data: the reply is handled on the data as the first part left them.  In
    the runs below the two parts are also events of their own, with anything
    in between. *)
Definition performSearch (reply : search_reply) (now : Z) (st : state)
  : state * list request :=
  let '(st1, sent) := performSearch_begin st in
  match sent with
  | [] => (st1, [])
  | _ :: _ => (performSearch_reply reply now st1, sent)
  end.

(** [updateChart()], run from [$nextTick] after a search; [ctx] tells whether
    the canvas gave a drawing context. *)
Definition updateChart (ctx : bool) (st : state) : state :=
  if (length (searchHistory st) <? 1)%nat then st
  else if negb ctx then st
  else
    set_chart
      (Some {| labels := imap (fun i _ => "#" +:+ pretty (i + 1)%nat) (searchHistory st);
               chart_data := List.map time (searchHistory st) |}) st.

(** [mounted()] *)
Definition mounted (b : browser) (reply : indices_reply) (st : state)
  (storage : gmap string string) : state * gmap string string * list request :=
  let '(st, storage) := initializeSession b st storage in
  let '(st, sent) := loadIndices reply st in
  (st, storage, sent).

(** ** The earlier revision, [src/frontend/js/app.js]

    No session: [data()] has no [sessionId], the indices are kept as the
    server lists them and selected by [name], and no request carries a
    session.  [handleFileSelect], [showAlert] and [updateChart] are the same
    text as in the session revision. *)

Module Frontend.

Record state := {
  selectedFile : option file;
  indexName : string;
  indices : list listed_index;
  selectedIndex : string;
  searchQuery : string;
  searchSize : number;
  searchResults : list string;
  searchMetrics : option search_data;
  lastSearchQuery : string;
  searchHistory : list history_entry;
  uploading : bool;
  searching : bool;
  alert : alert_box;
  chart : option chart_config
}.

Definition data : state := {|
  selectedFile := None;
  indexName := "";
  indices := [];
  selectedIndex := "";
  searchQuery := "";
  searchSize := Num "10";
  searchResults := [];
  searchMetrics := None;
  lastSearchQuery := "";
  searchHistory := [];
  uploading := false;
  searching := false;
  alert := {| message := ""; type := "success" |};
  chart := None
|}.

Definition set_selectedFile v st :=
  Build_state v (indexName st) (indices st) (selectedIndex st) (searchQuery st)
    (searchSize st) (searchResults st) (searchMetrics st) (lastSearchQuery st)
    (searchHistory st) (uploading st) (searching st) (alert st) (chart st).
Definition set_indexName v st :=
  Build_state (selectedFile st) v (indices st) (selectedIndex st) (searchQuery st)
    (searchSize st) (searchResults st) (searchMetrics st) (lastSearchQuery st)
    (searchHistory st) (uploading st) (searching st) (alert st) (chart st).
Definition set_indices v st :=
  Build_state (selectedFile st) (indexName st) v (selectedIndex st) (searchQuery st)
    (searchSize st) (searchResults st) (searchMetrics st) (lastSearchQuery st)
    (searchHistory st) (uploading st) (searching st) (alert st) (chart st).
Definition set_selectedIndex v st :=
  Build_state (selectedFile st) (indexName st) (indices st) v (searchQuery st)
    (searchSize st) (searchResults st) (searchMetrics st) (lastSearchQuery st)
    (searchHistory st) (uploading st) (searching st) (alert st) (chart st).
Definition set_searchQuery v st :=
  Build_state (selectedFile st) (indexName st) (indices st) (selectedIndex st) v
    (searchSize st) (searchResults st) (searchMetrics st) (lastSearchQuery st)
    (searchHistory st) (uploading st) (searching st) (alert st) (chart st).
Definition set_searchSize v st :=
  Build_state (selectedFile st) (indexName st) (indices st) (selectedIndex st) (searchQuery st)
    v (searchResults st) (searchMetrics st) (lastSearchQuery st)
    (searchHistory st) (uploading st) (searching st) (alert st) (chart st).
Definition set_searchResults v st :=
  Build_state (selectedFile st) (indexName st) (indices st) (selectedIndex st) (searchQuery st)
    (searchSize st) v (searchMetrics st) (lastSearchQuery st)
    (searchHistory st) (uploading st) (searching st) (alert st) (chart st).
Definition set_searchMetrics v st :=
  Build_state (selectedFile st) (indexName st) (indices st) (selectedIndex st) (searchQuery st)
    (searchSize st) (searchResults st) v (lastSearchQuery st)
    (searchHistory st) (uploading st) (searching st) (alert st) (chart st).
Definition set_lastSearchQuery v st :=
  Build_state (selectedFile st) (indexName st) (indices st) (selectedIndex st) (searchQuery st)
    (searchSize st) (searchResults st) (searchMetrics st) v
    (searchHistory st) (uploading st) (searching st) (alert st) (chart st).
Definition set_searchHistory v st :=
  Build_state (selectedFile st) (indexName st) (indices st) (selectedIndex st) (searchQuery st)
    (searchSize st) (searchResults st) (searchMetrics st) (lastSearchQuery st)
    v (uploading st) (searching st) (alert st) (chart st).
Definition set_uploading v st :=
  Build_state (selectedFile st) (indexName st) (indices st) (selectedIndex st) (searchQuery st)
    (searchSize st) (searchResults st) (searchMetrics st) (lastSearchQuery st)
    (searchHistory st) v (searching st) (alert st) (chart st).
Definition set_searching v st :=
  Build_state (selectedFile st) (indexName st) (indices st) (selectedIndex st) (searchQuery st)
    (searchSize st) (searchResults st) (searchMetrics st) (lastSearchQuery st)
    (searchHistory st) (uploading st) v (alert st) (chart st).
Definition set_alert v st :=
  Build_state (selectedFile st) (indexName st) (indices st) (selectedIndex st) (searchQuery st)
    (searchSize st) (searchResults st) (searchMetrics st) (lastSearchQuery st)
    (searchHistory st) (uploading st) (searching st) v (chart st).
Definition set_chart v st :=
  Build_state (selectedFile st) (indexName st) (indices st) (selectedIndex st) (searchQuery st)
    (searchSize st) (searchResults st) (searchMetrics st) (lastSearchQuery st)
    (searchHistory st) (uploading st) (searching st) (alert st) v.

Inductive request :=
  | PostUploadCsv (f : file) (index_name : string)
  | GetIndices
  | PostSearch (index_name query : string) (size : number) (agg_fields : list string).

Definition showAlert (msg ty : string) (st : state) : state :=
  set_alert {| message := msg; type := ty |} st.

Definition alertExpired (st : state) : state :=
  set_alert {| message := ""; type := type (alert st) |} st.

Definition handleFileSelect (f : option file) (st : state) : state :=
  match f with
  | Some fl =>
      if file_type fl =? "text/csv" then
        let st := set_selectedFile (Some fl) st in
        let baseName := Js.toLowerCase (Js.replace_first ".csv" "" (file_name fl)) in
        let st := set_indexName (sanitize baseName) st in
        showAlert "Archivo CSV seleccionado correctamente" "success" st
      else showAlert "Por favor selecciona un archivo CSV válido" "error" st
  | None => showAlert "Por favor selecciona un archivo CSV válido" "error" st
  end.

Definition loadIndices (reply : indices_reply) (st : state) : state * list request :=
  let sent := [GetIndices] in
  match reply with
  | IndicesDone listed =>
      let st := set_indices listed st in
      match indices st with
      | first :: _ =>
          if negb (Js.truthy (selectedIndex st))
          then (set_selectedIndex (listed_name first) st, sent)
          else (st, sent)
      | [] => (st, sent)
      end
  | IndicesFailed =>
      (showAlert "Error cargando la lista de índices" "error" st, sent)
  end.

Definition uploadCSV (reply : upload_reply) (reloaded : indices_reply) (st : state)
  : state * list request :=
  match selectedFile st with
  | None =>
      (showAlert "Selecciona un archivo y especifica un nombre de índice" "error" st, [])
  | Some fl =>
      if negb (Js.truthy (indexName st)) then
        (showAlert "Selecciona un archivo y especifica un nombre de índice" "error" st, [])
      else
        let st := set_uploading true st in
        let sent := [PostUploadCsv fl (indexName st)] in
        match reply with
        | UploadDone success_count indexing_time_seconds =>
            let st :=
              showAlert ("CSV cargado exitosamente. " +:+ number_text success_count
                         +:+ " documentos indexados en "
                         +:+ number_text indexing_time_seconds +:+ "s")
                        "success" st in
            let st := set_selectedFile None st in
            let st := set_indexName "" st in
            let '(st, sent') := loadIndices reloaded st in
            (set_uploading false st, (sent ++ sent')%list)
        | UploadFailed detail =>
            let st :=
              showAlert (Js.or_default detail "Error cargando el archivo CSV") "error" st in
            (set_uploading false st, sent)
        end
  end.

(** [selectIndex(indexName)] *)
Definition selectIndex (indexName : string) (st : state) : state :=
  set_selectedIndex indexName st.

Definition textColumns (st : state) : list string :=
  match List.find (fun i => listed_name i =? selectedIndex st) (indices st) with
  | Some i =>
      List.map col_name (List.filter (fun c => col_type c =? "text") (listed_columns i))
  | None => []
  end.

(** [performSearch()], in the same three definitions as for the session
    revision: up to the request, from the reply on, and the call with
    nothing in between. *)
Definition performSearch_begin (st : state) : state * list request :=
  if negb (Js.truthy (selectedIndex st)) || negb (Js.truthy (Js.trim (searchQuery st))) then
    (showAlert "Selecciona un índice y escribe una consulta" "error" st, [])
  else
    let st := set_searching true st in
    let st := set_lastSearchQuery (searchQuery st) st in
    (st, [PostSearch (selectedIndex st) (searchQuery st) (searchSize st)
                     (textColumns st)]).

Definition performSearch_reply (reply : search_reply) (now : Z) (st : state) : state :=
  let st :=
    match reply with
    | SearchDone d =>
        let st := set_searchResults (data_results d) st in
        let st := set_searchMetrics (Some d) st in
        let entry := {| query := searchQuery st;
                        time := search_time_seconds d;
                        results := total_results d;
                        timestamp := now |} in
        let st := set_searchHistory (remember entry (searchHistory st)) st in
        showAlert ("Búsqueda completada: " +:+ number_text (total_results d)
                   +:+ " resultados en " +:+ number_text (search_time_seconds d) +:+ "s")
                  "success" st
    | SearchRefused detail =>
        let thrown := Js.or_default detail "Error realizando la búsqueda" in
        showAlert (Js.or_default (Some thrown) "Error realizando la búsqueda") "error" st
    | SearchThrew error_message =>
        showAlert (Js.or_default error_message "Error realizando la búsqueda") "error" st
    end in
  set_searching false st.

Definition performSearch (reply : search_reply) (now : Z) (st : state)
  : state * list request :=
  let '(st1, sent) := performSearch_begin st in
  match sent with
  | [] => (st1, [])
  | _ :: _ => (performSearch_reply reply now st1, sent)
  end.

Definition updateChart (ctx : bool) (st : state) : state :=
  if (length (searchHistory st) <? 1)%nat then st
  else if negb ctx then st
  else
    set_chart
      (Some {| labels := imap (fun i _ => "#" +:+ pretty (i + 1)%nat) (searchHistory st);
               chart_data := List.map time (searchHistory st) |}) st.

(** [mounted()] *)
Definition mounted (reply : indices_reply) (st : state) : state * list request :=
  loadIndices reply st.

End Frontend.

(** ** [formatFileSize]

    The same text in both revisions.  The argument is a byte count.  A double is taken as the real number it
    denotes; what the browser computes is left to three parameters:
    [Math.log], the rounded division of two doubles, and the text of
    [parseFloat((bytes / Math.pow(k, i)).toFixed(2))]. *)

(** [Math.floor] *)
Definition Math_floor (x : R) : Z := Int_part x.

Definition sizes : list string := ["Bytes"; "KB"; "MB"; "GB"].

(** [a[i]] for an integer [i]: [undefined] outside the array. *)
Definition element (a : list string) (i : Z) : option string :=
  if (i <? 0)%Z then None else a !! Z.to_nat i.

Section FileSize.

Variable Math_log : R -> R.
Variable divide : R -> R -> R.
Variable scaled_text : N -> Z -> string.

Definition unit_index (bytes : N) : Z :=
  Math_floor (divide (Math_log (IZR (Z.of_N bytes))) (Math_log 1024)).

Definition formatFileSize (bytes : N) : string :=
  if (bytes =? 0)%N then "0 Bytes"
  else
    let i := unit_index bytes in
    scaled_text bytes i +:+ " " +:+ default "undefined" (element sizes i).

End FileSize.

(** What is asked of the browser's arithmetic for byte counts below
    [1024^4]: [Math.log] within a relative error of
    [2^-48] of the logarithm on the integers from 1 to [2^40] (and so
    [Math.log(1) = 0]), and the division of two doubles rounded to the
    nearest, within [2^-53], where the quotient is a normal number. *)
Definition log_error : R := (/ 2 ^ 48)%R.
Definition division_error : R := (/ 2 ^ 53)%R.

Definition accurate_log (Math_log : R -> R) : Prop :=
  forall n : Z, (1 <= n <= 2 ^ 40)%Z ->
    (Rabs (Math_log (IZR n) - ln (IZR n)) <= log_error * ln (IZR n))%R.

Definition accurate_division (divide : R -> R -> R) : Prop :=
  forall x y : R, (x = 0 \/ / 4 <= x <= 64)%R -> (1 <= y <= 16)%R ->
    (Rabs (divide x y - x / y) <= division_error * (x / y))%R.

(** ** Runs of the component

    What can happen to a page: it is loaded (the data start afresh and
    [mounted] runs; [sessionStorage] outlives the load), a method is called
    from the page, a form field bound to the data is edited, the timer of an
    alert fires.  A method call is taken as one step; for [performSearch],
    which reads the form again after its request was answered, the request
    ([SearchSent]) and the handling of the reply ([SearchReplied]) are also
    steps of their own, so that anything may happen in between. *)

Inductive event :=
  | PageLoad (b : browser) (reply : indices_reply)
  | FileSelect (f : option file)
  | UploadCSV (reply : upload_reply) (reloaded : indices_reply)
  | LoadIndices (reply : indices_reply)
  | SelectIndex (index : index_entry)
  | PerformSearch (reply : search_reply) (now : Z)
  | UpdateChart (ctx : bool)
  | AlertExpired
  | EditIndexName (v : string)
  | EditSearchQuery (v : string)
  | EditSearchSize (v : number)
  | SearchSent
  | SearchReplied (reply : search_reply) (now : Z).

Definition step (sys : state * gmap string string) (e : event)
  : state * gmap string string :=
  let '(st, storage) := sys in
  match e with
  | PageLoad b reply => fst (mounted b reply data storage)
  | FileSelect f => (handleFileSelect f st, storage)
  | UploadCSV reply reloaded => (fst (uploadCSV reply reloaded st), storage)
  | LoadIndices reply => (fst (loadIndices reply st), storage)
  | SelectIndex index => (selectIndex index st, storage)
  | PerformSearch reply now => (fst (performSearch reply now st), storage)
  | UpdateChart ctx => (updateChart ctx st, storage)
  | AlertExpired => (alertExpired st, storage)
  | EditIndexName v => (set_indexName v st, storage)
  | EditSearchQuery v => (set_searchQuery v st, storage)
  | EditSearchSize v => (set_searchSize v st, storage)
  | SearchSent => (fst (performSearch_begin st), storage)
  | SearchReplied reply now => (performSearch_reply reply now st, storage)
  end.

Definition run (events : list event) (sys : state * gmap string string)
  : state * gmap string string :=
  fold_left step events sys.

Module FrontendRun.
Import Frontend.

Inductive event :=
  | PageLoad (reply : indices_reply)
  | FileSelect (f : option file)
  | UploadCSV (reply : upload_reply) (reloaded : indices_reply)
  | LoadIndices (reply : indices_reply)
  | SelectIndex (indexName : string)
  | PerformSearch (reply : search_reply) (now : Z)
  | UpdateChart (ctx : bool)
  | AlertExpired
  | EditIndexName (v : string)
  | EditSearchQuery (v : string)
  | EditSearchSize (v : number)
  | SearchSent
  | SearchReplied (reply : search_reply) (now : Z).

Definition step (st : state) (e : event) : state :=
  match e with
  | PageLoad reply => fst (mounted reply data)
  | FileSelect f => handleFileSelect f st
  | UploadCSV reply reloaded => fst (uploadCSV reply reloaded st)
  | LoadIndices reply => fst (loadIndices reply st)
  | SelectIndex indexName => selectIndex indexName st
  | PerformSearch reply now => fst (performSearch reply now st)
  | UpdateChart ctx => updateChart ctx st
  | AlertExpired => alertExpired st
  | EditIndexName v => set_indexName v st
  | EditSearchQuery v => set_searchQuery v st
  | EditSearchSize v => set_searchSize v st
  | SearchSent => fst (performSearch_begin st)
  | SearchReplied reply now => performSearch_reply reply now st
  end.

Definition run (events : list event) (st : state) : state := fold_left step events st.

End FrontendRun.

(** ** The requests of a run *)

(** The session that a request carries. *)
Definition session_of (r : request) : option string :=
  match r with
  | PostUploadCsv _ _ session_id => session_id
  | GetIndices session_id => session_id
  | PostSearch _ _ _ _ session_id => session_id
  end.

(** A request with nothing empty in it: a session, and for an upload an index
    name, for a search an index name and a query that is not blank. *)
Definition request_ok (r : request) : bool :=
  match r with
  | PostUploadCsv _ index_name session_id =>
      Js.truthy index_name && Js.truthy_opt session_id
  | GetIndices session_id => Js.truthy_opt session_id
  | PostSearch index_name query _ _ session_id =>
      Js.truthy index_name && Js.truthy (Js.trim query) && Js.truthy_opt session_id
  end.

(** What one step sends. *)
Definition sent_by (sys : state * gmap string string) (e : event) : list request :=
  let '(st, storage) := sys in
  match e with
  | PageLoad b reply => snd (mounted b reply data storage)
  | UploadCSV reply reloaded => snd (uploadCSV reply reloaded st)
  | LoadIndices reply => snd (loadIndices reply st)
  | PerformSearch reply now => snd (performSearch reply now st)
  | SearchSent => snd (performSearch_begin st)
  | _ => []
  end.

(** All that a run sends, in order. *)
Fixpoint trace (events : list event) (sys : state * gmap string string) : list request :=
  match events with
  | [] => []
  | e :: events => (sent_by sys e ++ trace events (step sys e))%list
  end.

(** [accurate_log] with another bound on the integers. *)
Definition accurate_log_to (bound : Z) (Math_log : R -> R) : Prop :=
  forall n : Z, (1 <= n <= bound)%Z ->
    (Rabs (Math_log (IZR n) - ln (IZR n)) <= log_error * ln (IZR n))%R.

(** ** Predicates used in the further properties *)

(** A name without a dot. *)
Definition no_dot (s : string) : bool := Js.all (fun c => negb (Ascii.eqb c ".")) s.

(** [[0-9a-f]] *)
Definition lower_hex (c : ascii) : bool := Js.between "0" "9" c || Js.between "a" "f" c.

(** The label of the point of index [i] in the chart. *)
Definition point_label (i : nat) : string := "#" +:+ pretty (i + 1)%nat.

(** The session of the component is none, or the token of the storage. *)
Definition session_stored (sys : state * gmap string string) : Prop :=
  sessionId (fst sys) = None \/ sessionId (fst sys) = snd sys !! "userSessionId".

(** ** Data for the examples *)

Definition uuid0 : string := "01234567-89ab-4cde-b012-3456789abcde".

Definition listed0 : list listed_index :=
  [ {| listed_name := "temp-" +:+ uuid0 +:+ "-sales";
       listed_columns := [ {| col_name := "city"; col_type := "text" |};
                           {| col_name := "amount"; col_type := "float" |};
                           {| col_name := "client"; col_type := "text" |} ] |};
    {| listed_name := "temp-" +:+ uuid0 +:+ "-stock"; listed_columns := [] |} ].

Definition browser0 : browser := {| randomUUID := None; draws := fun k => (N.of_nat k mod 16)%N |}.

Definition found0 : search_data :=
  {| data_results := ["{}"]; total_results := Num "1";
     search_time_seconds := Num "0.012"; aggregations := [] |}.

(** The page after its first load, with a query typed. *)
Definition searching0 : state :=
  set_searchQuery "madrid" (fst (mounted browser0 (IndicesDone listed0) data ∅)).1.

(** A load of the page, then one completed search for each query. *)
Definition searches (queries : list string) : list event :=
  PageLoad browser0 (IndicesDone listed0)
  :: List.concat
       (List.map (fun q => [EditSearchQuery q; PerformSearch (SearchDone found0) 0]) queries).

(** * Properties *)

(** ** The methods on examples *)

Example normalize_my_file : normalize "My File!" = "my_file_".
Proof. reflexivity. Qed.

Example autoIndexName_csv : autoIndexName "Sales 2024.csv" = "sales_2024".
Proof. reflexivity. Qed.

Example display_name_uuid :
  display_name "temp-123e4567-e89b-42d3-a456-426614174000-my_file_" = "my_file_".
Proof. reflexivity. Qed.

Example display_name_other : display_name "temp-abc-my_file_" = "temp-abc-my_file_".
Proof. reflexivity. Qed.

Example uuid_shaped_yes : uuid_shaped "123e4567-e89b-42d3-a456-426614174000" = true.
Proof. reflexivity. Qed.

Example trim_blank : Js.trim "  	 " = "".
Proof. reflexivity. Qed.

Example trim_inner : Js.trim "  a b  " = "a b".
Proof. reflexivity. Qed.

Example generateUUID_fallback :
  generateUUID browser0 = "01234567-89ab-4cde-b012-3456789abcde".
Proof. reflexivity. Qed.

Example mounted_first :
  let '(st, storage, sent) := mounted browser0 (IndicesDone listed0) data ∅ in
  sessionId st = Some "01234567-89ab-4cde-b012-3456789abcde"
  /\ storage !! "userSessionId" = Some "01234567-89ab-4cde-b012-3456789abcde"
  /\ List.map name (indices st) = ["sales"; "stock"]
  /\ selectedIndex st = "temp-" +:+ uuid0 +:+ "-sales".
Proof. vm_compute. auto. Qed.

Example search_sends_text_columns :
  let st := fst (run [PageLoad browser0 (IndicesDone listed0); EditSearchQuery "madrid"]
                     (data, ∅)) in
  snd (performSearch (SearchDone found0) 0 st)
  = [PostSearch ("temp-" +:+ uuid0 +:+ "-sales") "madrid" (Num "10") ["city"; "client"]
       (Some "01234567-89ab-4cde-b012-3456789abcde")].
Proof. vm_compute. reflexivity. Qed.

(** ** Strings *)

Lemma append_nil (t : string) : "" +:+ t = t.
Proof. reflexivity. Qed.

Lemma append_cons (c : ascii) (s t : string) : String c s +:+ t = String c (s +:+ t).
Proof. reflexivity. Qed.

Lemma length_append (s t : string) :
  String.length (s +:+ t) = (String.length s + String.length t)%nat.
Proof.
  induction s as [|c s IH]; rewrite ?append_nil, ?append_cons; simpl;
    [reflexivity | now rewrite IH].
Qed.

(** Two strings with the same tail have the same head. *)
Lemma append_inv_tail (t a b : string) : a +:+ t = b +:+ t -> a = b.
Proof.
  revert b; induction a as [|c a IH]; intros [|d b] E;
    rewrite ?append_nil, ?append_cons in E.
  - reflexivity.
  - apply (f_equal String.length) in E. simpl in E. rewrite length_append in E. lia.
  - apply (f_equal String.length) in E. simpl in E. rewrite length_append in E. lia.
  - injection E as -> E. now rewrite (IH b E).
Qed.

(** Heads of the same length split a string in one way only. *)
Lemma append_inv_length (a b s t : string) :
  String.length a = String.length b -> a +:+ s = b +:+ t -> a = b /\ s = t.
Proof.
  revert b; induction a as [|c a IH]; intros [|d b] L E;
    rewrite ?append_nil, ?append_cons in E; simpl in L; try discriminate.
  - now split.
  - injection E as -> E. injection L as L. destruct (IH b L E) as [-> ->]. now split.
Qed.

Lemma map_length (f : ascii -> ascii) (s : string) :
  String.length (Js.map f s) = String.length s.
Proof. induction s as [|c s IH]; simpl; [reflexivity | now rewrite IH]. Qed.

Lemma map_map (f g : ascii -> ascii) (s : string) :
  Js.map g (Js.map f s) = Js.map (fun c => g (f c)) s.
Proof. induction s as [|c s IH]; simpl; [reflexivity | now rewrite IH]. Qed.

Lemma all_map (p : ascii -> bool) (f : ascii -> ascii) (s : string) :
  (forall c, p (f c) = true) -> Js.all p (Js.map f s) = true.
Proof. intros H; induction s as [|c s IH]; simpl; [reflexivity | now rewrite H, IH]. Qed.

Lemma length_zero (s : string) : String.length s = 0%nat -> s = "".
Proof. destruct s; [reflexivity | discriminate]. Qed.

Lemma truthy_true (s : string) : Js.truthy s = true <-> s <> "".
Proof. unfold Js.truthy. rewrite negb_true_iff. apply String.eqb_neq. Qed.

Lemma truthy_false (s : string) : Js.truthy s = false <-> s = "".
Proof. unfold Js.truthy. rewrite negb_false_iff. apply String.eqb_eq. Qed.

(** ** Normalised names *)

Lemma name_char_underscore : name_char "_" = true.
Proof. reflexivity. Qed.

Lemma sanitize_restricted (s : string) : Js.all name_char (sanitize s) = true.
Proof.
  apply all_map. intros c. destruct (name_char c) eqn:E; [exact E | reflexivity].
Qed.

Lemma normalize_length (raw : string) : String.length (normalize raw) = String.length raw.
Proof. unfold normalize, sanitize, Js.toLowerCase. now rewrite !map_length. Qed.

Lemma normalize_empty (raw : string) : normalize raw = "" <-> raw = "".
Proof.
  split; [|intros ->; reflexivity].
  intros E. apply length_zero. rewrite <- normalize_length, E. reflexivity.
Qed.

(** A name within the class and in lower case already is its own
    normalisation. *)
Lemma lower_unit_name_char (c : ascii) : name_char c = true -> Js.lower_unit c = c.
Proof.
  destruct c as [[] [] [] [] [] [] [] []]; vm_compute; congruence.
Qed.

Lemma normalize_idempotent (raw : string) : normalize (normalize raw) = normalize raw.
Proof.
  unfold normalize, sanitize, Js.toLowerCase. rewrite !map_map.
  induction raw as [|c raw IH]; simpl; [reflexivity|]. rewrite IH. f_equal.
  destruct (name_char (Js.lower_unit c)) eqn:E.
  - rewrite (lower_unit_name_char _ E), E. reflexivity.
  - reflexivity.
Qed.

(** What the client puts in the form for a selected CSV file. *)
Lemma handleFileSelect_indexName (fl : file) (st : state) :
  file_type fl = "text/csv" ->
  indexName (handleFileSelect (Some fl) st) = autoIndexName (file_name fl)
  /\ Js.all name_char (indexName (handleFileSelect (Some fl) st)) = true.
Proof.
  intros T. unfold handleFileSelect. rewrite T. simpl. split; [reflexivity|].
  apply sanitize_restricted.
Qed.

Lemma Frontend_handleFileSelect_indexName (fl : file) (st : Frontend.state) :
  file_type fl = "text/csv" ->
  Frontend.indexName (Frontend.handleFileSelect (Some fl) st) = autoIndexName (file_name fl)
  /\ Js.all name_char (Frontend.indexName (Frontend.handleFileSelect (Some fl) st)) = true.
Proof.
  intros T. unfold Frontend.handleFileSelect. rewrite T. simpl. split; [reflexivity|].
  apply sanitize_restricted.
Qed.

(** The client refuses to upload under an empty name: an error alert and no
    request. *)
Lemma uploadCSV_empty_name reply reloaded (st : state) :
  indexName st = "" ->
  exists msg, msg <> "" /\ uploadCSV reply reloaded st = (showAlert msg "error" st, []).
Proof.
  intros E. unfold uploadCSV.
  destruct (negb (Js.truthy_opt (sessionId st))); [eexists; split; [|reflexivity]; discriminate|].
  destruct (selectedFile st); [|eexists; split; [|reflexivity]; discriminate].
  rewrite E. simpl. eexists; split; [|reflexivity]; discriminate.
Qed.

Lemma Frontend_uploadCSV_empty_name reply reloaded (st : Frontend.state) :
  Frontend.indexName st = "" ->
  exists msg, msg <> ""
    /\ Frontend.uploadCSV reply reloaded st = (Frontend.showAlert msg "error" st, []).
Proof.
  intros E. unfold Frontend.uploadCSV.
  destruct (Frontend.selectedFile st); [|eexists; split; [|reflexivity]; discriminate].
  rewrite E. simpl. eexists; split; [|reflexivity]; discriminate.
Qed.

(** ** The session prefix and the name to display *)

Lemma match_start_cons (i : Js.item) (pat : list Js.item) (s rest : string) :
  Js.match_start (i :: pat) s = Some rest ->
  exists c s', s = String c s' /\ Js.item_ok i c = true /\ Js.match_start pat s' = Some rest.
Proof.
  destruct s as [|c s']; simpl; [discriminate|].
  destruct (Js.item_ok i c) eqn:E; [|discriminate].
  intros H. now exists c, s'.
Qed.

Lemma match_start_nil (s rest : string) : Js.match_start [] s = Some rest -> s = rest.
Proof. destruct s; simpl; congruence. Qed.

Lemma uuid_from_beyond (i : nat) (s : string) : (36 < i)%nat -> uuid_from i s = false.
Proof.
  revert i; induction s as [|c s IH]; intros i Hi; simpl.
  - apply Nat.eqb_neq. lia.
  - rewrite (IH (S i)) by lia. apply andb_false_r.
Qed.

(** One more item of the pattern against one more character. *)
Ltac peel_item H :=
  let c := fresh "c" in
  let s := fresh "s" in
  let Hc := fresh "Hc" in
  apply match_start_cons in H as (c & s & -> & Hc & H);
  cbn [Js.item_ok] in Hc; try (apply Ascii.eqb_eq in Hc; subst c).

(** One more character of a string of the shape of a UUID. *)
Ltac peel_uuid H u :=
  let c := fresh "c" in
  let Hc := fresh "Hc" in
  destruct u as [|c u]; [discriminate H|];
  cbn [uuid_from existsb Nat.eqb orb] in H; apply andb_true_iff in H as [Hc H];
  try (apply Ascii.eqb_eq in Hc; subst c).

Ltac use_hex :=
  repeat match goal with
         | H : Js.is_hex ?c = true |- context [Js.is_hex ?c] => rewrite H
         end.

(** The pattern matches exactly the identifiers [temp-<UUID>-<rest>], and
    what it leaves is [rest]. *)
Lemma session_prefix_sound (identifier rest : string) :
  Js.match_start session_prefix identifier = Some rest ->
  exists u, uuid_shaped u = true /\ identifier = "temp-" +:+ u +:+ "-" +:+ rest.
Proof.
  intros H.
  let p := eval vm_compute in session_prefix in change session_prefix with p in H.
  do 42 peel_item H.
  apply match_start_nil in H; subst.
  eexists (String _ (String _ (String _ (String _ (String _ (String _ (String _ (String _
          (String _ (String _ (String _ (String _ (String _ (String _ (String _ (String _
          (String _ (String _ (String _ (String _ (String _ (String _ (String _ (String _
          (String _ (String _ (String _ (String _ (String _ (String _ (String _ (String _
          (String _ (String _ (String _ (String _ EmptyString)))))))))))))))))))))))))))))))))))).
  split; [|rewrite !append_cons, append_nil; reflexivity].
  unfold uuid_shaped; cbn [uuid_from existsb Nat.eqb orb Ascii.eqb Bool.eqb].
  use_hex. reflexivity.
Qed.

Lemma session_prefix_complete (u rest : string) :
  uuid_shaped u = true ->
  Js.match_start session_prefix ("temp-" +:+ u +:+ "-" +:+ rest) = Some rest.
Proof.
  unfold uuid_shaped. intros H.
  do 36 peel_uuid H u.
  destruct u as [|extra u].
  - rewrite !append_cons, !append_nil.
    let p := eval vm_compute in session_prefix in change session_prefix with p.
    cbn [Js.match_start Js.item_ok Ascii.eqb Bool.eqb]. use_hex. reflexivity.
  - cbn [uuid_from] in H. rewrite uuid_from_beyond in H by lia.
    rewrite andb_false_r in H. discriminate.
Qed.

Lemma uuid_shaped_length (u : string) : uuid_shaped u = true -> String.length u = 36%nat.
Proof.
  unfold uuid_shaped. intros H.
  do 36 peel_uuid H u.
  destruct u as [|extra u]; [reflexivity|].
  cbn [uuid_from] in H. rewrite uuid_from_beyond in H by lia.
  rewrite andb_false_r in H. discriminate.
Qed.

Lemma display_name_strips (u rest : string) :
  uuid_shaped u = true -> display_name (compose u rest) = rest.
Proof.
  intros H. unfold display_name, compose, Js.replace_anchored.
  now rewrite (session_prefix_complete u rest H).
Qed.

Lemma has_session_prefix_match (identifier : string) :
  has_session_prefix identifier <->
  exists rest, Js.match_start session_prefix identifier = Some rest.
Proof.
  split.
  - intros (u & rest & Hu & ->). exists rest. now apply session_prefix_complete.
  - intros (rest & H). destruct (session_prefix_sound _ _ H) as (u & Hu & E).
    now exists u, rest.
Qed.

(** Identifiers of two sessions with tokens of the shape of a UUID differ,
    whatever the two names are. *)
Lemma compose_injective (a b n m : string) :
  uuid_shaped a = true -> uuid_shaped b = true ->
  compose a n = compose b m -> a = b /\ n = m.
Proof.
  intros Ha Hb E. unfold compose in E. rewrite !append_cons, !append_nil in E.
  injection E as E.
  apply append_inv_length in E.
  - destruct E as [-> E]. now injection E as ->.
  - now rewrite (uuid_shaped_length a), (uuid_shaped_length b).
Qed.

(** C1. Two different session tokens give two different identifiers for the
    same raw name: the composed strings [temp-<token>-<normalised name>]
    differ, and so do the identifiers that [resolve] returns. *)
Theorem resolve_sessions_disjoint (a b raw : string) :
  a <> b ->
  compose a (normalize raw) <> compose b (normalize raw)
  /\ (forall ia ib, resolve a raw = inr ia -> resolve b raw = inr ib -> ia <> ib).
Proof.
  intros Hab.
  assert (D : compose a (normalize raw) <> compose b (normalize raw)).
  { unfold compose. rewrite !append_cons, !append_nil. intros E.
    injection E as E. apply Hab. exact (append_inv_tail _ _ _ E). }
  split; [exact D|].
  intros ia ib. unfold resolve.
  destruct (normalize raw =? ""); [discriminate|].
  intros [= <-] [= <-]. exact D.
Qed.

Lemma resolve_sessions_disjoint_witness :
  "temp-0123-my_file_" <> "temp-4567-my_file_".
Proof.
  apply (proj2 (resolve_sessions_disjoint "0123" "4567" "My File!" ltac:(discriminate))
               "temp-0123-my_file_" "temp-4567-my_file_");
    reflexivity.
Defined.

(** C2. Normalisation lower-cases the raw name and puts an underscore for
    every character outside [[a-z0-9_-]], character by character, so the
    result holds characters of that class only; a raw name whose normalisation
    is empty is refused with [InvalidNameError], any other is resolved. *)
Theorem normalize_restricted (session_token raw : string) :
  normalize raw
  = Js.map (fun c => if name_char (Js.lower_unit c) then Js.lower_unit c else "_"%char) raw
  /\ Js.all name_char (normalize raw) = true
  /\ (normalize raw = "" -> resolve session_token raw = inl InvalidNameError)
  /\ (normalize raw <> "" ->
      resolve session_token raw = inr (compose session_token (normalize raw))).
Proof.
  split; [|split; [|split]].
  - unfold normalize, sanitize, Js.toLowerCase. apply map_map.
  - apply sanitize_restricted.
  - intros E. unfold resolve. now rewrite E.
  - intros E. unfold resolve. apply String.eqb_neq in E. now rewrite E.
Qed.

Lemma normalize_restricted_witness :
  resolve uuid0 "" = inl InvalidNameError
  /\ resolve uuid0 "My File!" = inr (compose uuid0 "my_file_").
Proof.
  split.
  - apply (proj1 (proj2 (proj2 (normalize_restricted uuid0 "")))). reflexivity.
  - apply (proj2 (proj2 (proj2 (normalize_restricted uuid0 "My File!")))). discriminate.
Defined.

(** C3. For a session token, a string of the shape of a UUID (8-4-4-4-12
    hexadecimal digits) as [generateUUID] makes them, and a raw name that
    [resolve] accepts, the name to display for the identifier is exactly the
    normalised raw name: the prefix [temp-<session_token>-] is stripped. *)
Theorem display_name_of_resolve (session_token raw identifier : string) :
  uuid_shaped session_token = true ->
  resolve session_token raw = inr identifier ->
  display_name identifier = normalize raw.
Proof.
  intros Hu. unfold resolve. destruct (normalize raw =? ""); [discriminate|].
  intros [= <-]. now apply display_name_strips.
Qed.

Lemma display_name_of_resolve_witness :
  display_name ("temp-" +:+ uuid0 +:+ "-my_file_") = "my_file_".
Proof.
  apply (display_name_of_resolve uuid0 "My File!"); reflexivity.
Defined.

(** C4. An identifier that is not of the form [temp-<UUID>-<rest>] is
    displayed as it is: [display_name], a total function, returns it
    unchanged. *)
Theorem display_name_unchanged (identifier : string) :
  ~ has_session_prefix identifier -> display_name identifier = identifier.
Proof.
  intros H. unfold display_name, Js.replace_anchored.
  destruct (Js.match_start session_prefix identifier) as [rest|] eqn:E; [|reflexivity].
  exfalso. apply H. apply has_session_prefix_match. now exists rest.
Qed.

Lemma display_name_unchanged_witness :
  display_name "temp-abc-my_file_" = "temp-abc-my_file_".
Proof.
  apply display_name_unchanged.
  intros H. apply has_session_prefix_match in H as [rest H].
  vm_compute in H. discriminate H.
Defined.

(** ** The session token *)

Lemma toString16_digit (v : N) :
  (v < 16)%N -> exists d, toString16 v = String d "" /\ Js.is_hex d = true.
Proof.
  intros H. rewrite <- (N2Nat.id v).
  assert (Hn : (N.to_nat v < 16)%nat) by lia.
  generalize dependent (N.to_nat v). intros n Hn.
  do 16 (destruct n as [|n]; [eexists; split; reflexivity|]). lia.
Qed.

Lemma uuid_digit_hex (c : ascii) (r : N) :
  (r < 16)%N -> exists d, uuid_digit c r = String d "" /\ Js.is_hex d = true.
Proof.
  intros H. unfold uuid_digit. apply toString16_digit.
  destruct (Ascii.eqb c "x"); [exact H|].
  rewrite <- (N2Nat.id r).
  assert (Hn : (N.to_nat r < 16)%nat) by lia.
  generalize dependent (N.to_nat r). intros n Hn.
  do 16 (destruct n as [|n]; [reflexivity|]). lia.
Qed.

(** The generator gives a string of the shape of a UUID: the fall-back by
    its template, [crypto.randomUUID] by its definition in the browser. *)
Lemma generateUUID_shaped (b : browser) :
  (forall u, randomUUID b = Some u -> uuid_shaped u = true) ->
  (forall k, (draws b k < 16)%N) ->
  uuid_shaped (generateUUID b) = true.
Proof.
  intros Hc Hd. unfold generateUUID. destruct (randomUUID b) as [u|]; [now apply Hc|].
  cbn [fill Ascii.eqb Bool.eqb orb].
  repeat match goal with
         | |- context [uuid_digit ?c (draws b ?k)] =>
             let d := fresh "d" in
             let E := fresh "E" in
             let Hx := fresh "Hx" in
             destruct (uuid_digit_hex c (draws b k) (Hd k)) as (d & E & Hx); rewrite E; clear E
         end.
  rewrite !append_cons, !append_nil.
  unfold uuid_shaped; cbn [uuid_from existsb Nat.eqb orb Ascii.eqb Bool.eqb].
  use_hex. reflexivity.
Qed.

Lemma uuid_shaped_not_empty (u : string) : uuid_shaped u = true -> u <> "".
Proof. intros H ->. discriminate H. Qed.

Lemma initializeSession_reuses (b : browser) (st : state) (storage : gmap string string)
  (t : string) :
  storage !! "userSessionId" = Some t -> t <> "" ->
  initializeSession b st storage = (set_sessionId (Some t) st, storage).
Proof.
  intros H Ht. unfold initializeSession. rewrite H. simpl.
  apply truthy_true in Ht. now rewrite Ht.
Qed.

Lemma initializeSession_token (b : browser) (st : state) (storage : gmap string string) :
  generateUUID b <> "" ->
  exists t, t <> ""
    /\ snd (initializeSession b st storage) !! "userSessionId" = Some t
    /\ sessionId (fst (initializeSession b st storage)) = Some t.
Proof.
  intros Hg. unfold initializeSession.
  destruct (storage !! "userSessionId") as [t|] eqn:E; simpl.
  - destruct (Js.truthy t) eqn:T; simpl.
    + exists t. apply truthy_true in T. auto.
    + exists (generateUUID b). rewrite lookup_insert_eq. auto.
  - exists (generateUUID b). rewrite lookup_insert_eq. auto.
Qed.

Lemma step_keeps_token (e : event) (st : state) (storage : gmap string string) (t : string) :
  storage !! "userSessionId" = Some t -> t <> "" ->
  snd (step (st, storage) e) = storage.
Proof.
  intros H Ht. destruct e; simpl; try reflexivity.
  unfold mounted. rewrite (initializeSession_reuses _ _ _ _ H Ht).
  destruct (loadIndices _ _). reflexivity.
Qed.

Lemma run_cons (e : event) (events : list event) (sys : state * gmap string string) :
  run (e :: events) sys = run events (step sys e).
Proof. reflexivity. Qed.

(** Once a token is stored, no run of the page replaces it. *)
Lemma run_keeps_token (events : list event) (st : state) (storage : gmap string string)
  (t : string) :
  storage !! "userSessionId" = Some t -> t <> "" ->
  snd (run events (st, storage)) = storage.
Proof.
  intros H Ht. revert st.
  induction events as [|e events IH]; intros st; [reflexivity|].
  rewrite run_cons.
  pose proof (step_keeps_token e st storage t H Ht) as K.
  destruct (step (st, storage) e) as [st1 storage1]. simpl in K. subst storage1.
  apply IH.
Qed.

(** C8. [initializeSession] reuses a stored token as it is and leaves the
    storage alone; it writes to the storage only when no token is there (the
    key is absent, or holds the empty string); and after it ran once, the
    stored token stays the same through every later run of the page, every
    later [initializeSession] taking that same token. *)
Theorem session_token_created_once (b : browser) (st : state)
  (storage : gmap string string) (events : list event) :
  generateUUID b <> "" ->
  let first := initializeSession b st storage in
  let last := run events first in
  (forall t, storage !! "userSessionId" = Some t -> t <> "" ->
     first = (set_sessionId (Some t) st, storage))
  /\ (snd first <> storage -> Js.truthy_opt (storage !! "userSessionId") = false)
  /\ snd last = snd first
  /\ (forall b' st', initializeSession b' st' (snd last)
                     = (set_sessionId (sessionId (fst first)) st', snd first)).
Proof.
  intros Hg first last.
  destruct (initializeSession_token b st storage Hg) as (t & Ht & Hs & Hi).
  fold first in Hs, Hi.
  assert (K : snd last = snd first).
  { subst last. destruct first as [st1 storage1]. simpl in *.
    exact (run_keeps_token events st1 storage1 t Hs Ht). }
  split; [|split; [|split]].
  - intros t0 H0 Ht0. exact (initializeSession_reuses b st storage t0 H0 Ht0).
  - intros Hne. destruct (Js.truthy_opt (storage !! "userSessionId")) eqn:T; [|reflexivity].
    exfalso. apply Hne. subst first. unfold initializeSession. now rewrite T.
  - exact K.
  - intros b' st'. rewrite K, Hi. exact (initializeSession_reuses b' st' _ t Hs Ht).
Qed.

Lemma session_token_created_once_witness :
  snd (run [PageLoad browser0 IndicesFailed; PageLoad browser0 (IndicesDone listed0)]
           (initializeSession browser0 data ∅))
  = snd (initializeSession browser0 data ∅).
Proof.
  apply (session_token_created_once browser0 data ∅
           [PageLoad browser0 IndicesFailed; PageLoad browser0 (IndicesDone listed0)]).
  vm_compute. discriminate.
Defined.

(** ** Reloading the list of indices *)

(** What a successful reload puts in the list: every listed index under its
    full name, with the name to display. *)
Lemma loadIndices_entries (listed : list listed_index) (st : state) :
  Js.truthy_opt (sessionId st) = true ->
  indices (fst (loadIndices (IndicesDone listed) st)) = List.map to_entry listed
  /\ snd (loadIndices (IndicesDone listed) st) = [GetIndices (sessionId st)].
Proof.
  intros S. unfold loadIndices. rewrite S. simpl.
  destruct (List.map to_entry listed) as [|first others]; [split; reflexivity|].
  destruct (negb (Js.truthy (selectedIndex st))); split; reflexivity.
Qed.

(** C9. [loadIndices] keeps a selection that is not empty, whatever the
    server answers; when the selection changes, none was made before, and the
    new one is the full name of the first index listed. *)
Theorem loadIndices_keeps_selection (reply : indices_reply) (st : state) :
  (selectedIndex st <> "" ->
   selectedIndex (fst (loadIndices reply st)) = selectedIndex st)
  /\ (selectedIndex (fst (loadIndices reply st)) <> selectedIndex st ->
      selectedIndex st = ""
      /\ exists first others,
           indices (fst (loadIndices reply st)) = first :: others
           /\ selectedIndex (fst (loadIndices reply st)) = full_name first).
Proof.
  unfold loadIndices.
  destruct (negb (Js.truthy_opt (sessionId st))); [simpl; split; [reflexivity | congruence]|].
  destruct reply as [|listed]; [simpl; split; [reflexivity | congruence]|].
  destruct (indices (set_indices (List.map to_entry listed) st)) as [|first others] eqn:L;
    [simpl; split; [reflexivity | congruence]|].
  change (selectedIndex (set_indices (List.map to_entry listed) st)) with (selectedIndex st).
  destruct (Js.truthy (selectedIndex st)) eqn:T; simpl.
  - split; [reflexivity | congruence].
  - apply truthy_false in T. split; [congruence|].
    intros _. split; [exact T|]. exists first, others. split; [exact L | reflexivity].
Qed.

Lemma loadIndices_keeps_selection_witness :
  selectedIndex (fst (loadIndices (IndicesDone listed0)
                        (set_selectedIndex "temp-x-old" (set_sessionId (Some uuid0) data))))
  = "temp-x-old".
Proof.
  apply (proj1 (loadIndices_keeps_selection (IndicesDone listed0)
                  (set_selectedIndex "temp-x-old" (set_sessionId (Some uuid0) data)))).
  discriminate.
Defined.

Lemma Frontend_loadIndices_keeps_selection (reply : indices_reply) (st : Frontend.state) :
  (Frontend.selectedIndex st <> "" ->
   Frontend.selectedIndex (fst (Frontend.loadIndices reply st)) = Frontend.selectedIndex st)
  /\ (Frontend.selectedIndex (fst (Frontend.loadIndices reply st)) <> Frontend.selectedIndex st ->
      Frontend.selectedIndex st = ""
      /\ exists first others,
           Frontend.indices (fst (Frontend.loadIndices reply st)) = first :: others
           /\ Frontend.selectedIndex (fst (Frontend.loadIndices reply st)) = listed_name first).
Proof.
  unfold Frontend.loadIndices.
  destruct reply as [|listed]; [simpl; split; [reflexivity | congruence]|].
  destruct (Frontend.indices (Frontend.set_indices listed st)) as [|first others] eqn:L;
    [simpl; split; [reflexivity | congruence]|].
  change (Frontend.selectedIndex (Frontend.set_indices listed st))
    with (Frontend.selectedIndex st).
  destruct (Js.truthy (Frontend.selectedIndex st)) eqn:T; simpl.
  - split; [reflexivity | congruence].
  - apply truthy_false in T. split; [congruence|].
    intros _. split; [exact T|]. exists first, others. split; [exact L | reflexivity].
Qed.

(** ** Searching *)

(** The call as one piece, statement by statement. *)
Lemma performSearch_uninterrupted (reply : search_reply) (now : Z) (st : state) :
  performSearch reply now st =
  if negb (Js.truthy_opt (sessionId st)) then
    (showAlert "Error: No se pudo iniciar la sesión. Intenta recargar la página." "error" st, [])
  else if negb (Js.truthy (selectedIndex st)) || negb (Js.truthy (Js.trim (searchQuery st))) then
    (showAlert "Selecciona un índice y escribe una consulta" "error" st, [])
  else
    let st := set_searching true st in
    let st := set_lastSearchQuery (searchQuery st) st in
    let sent := [PostSearch (selectedIndex st) (searchQuery st) (searchSize st)
                            (textColumns st) (sessionId st)] in
    let st :=
      match reply with
      | SearchDone d =>
          let st := set_searchResults (data_results d) st in
          let st := set_searchMetrics (Some d) st in
          let entry := {| query := searchQuery st;
                          time := search_time_seconds d;
                          results := total_results d;
                          timestamp := now |} in
          let st := set_searchHistory (remember entry (searchHistory st)) st in
          showAlert ("Búsqueda completada: " +:+ number_text (total_results d)
                     +:+ " resultados en " +:+ number_text (search_time_seconds d) +:+ "s")
                    "success" st
      | SearchRefused detail =>
          let thrown := Js.or_default detail "Error realizando la búsqueda" in
          showAlert (Js.or_default (Some thrown) "Error realizando la búsqueda") "error" st
      | SearchThrew error_message =>
          showAlert (Js.or_default error_message "Error realizando la búsqueda") "error" st
      end in
    (set_searching false st, sent).
Proof.
  unfold performSearch, performSearch_begin, performSearch_reply.
  destruct (negb (Js.truthy_opt (sessionId st))); [reflexivity|].
  destruct (negb (Js.truthy (selectedIndex st)) || negb (Js.truthy (Js.trim (searchQuery st))));
    reflexivity.
Qed.

Lemma Frontend_performSearch_uninterrupted (reply : search_reply) (now : Z)
  (st : Frontend.state) :
  Frontend.performSearch reply now st =
  if negb (Js.truthy (Frontend.selectedIndex st)) || negb (Js.truthy (Js.trim (Frontend.searchQuery st))) then
    (Frontend.showAlert "Selecciona un índice y escribe una consulta" "error" st, [])
  else
    let st := Frontend.set_searching true st in
    let st := Frontend.set_lastSearchQuery (Frontend.searchQuery st) st in
    let sent := [Frontend.PostSearch (Frontend.selectedIndex st) (Frontend.searchQuery st) (Frontend.searchSize st)
                            (Frontend.textColumns st)] in
    let st :=
      match reply with
      | SearchDone d =>
          let st := Frontend.set_searchResults (data_results d) st in
          let st := Frontend.set_searchMetrics (Some d) st in
          let entry := {| query := Frontend.searchQuery st;
                          time := search_time_seconds d;
                          results := total_results d;
                          timestamp := now |} in
          let st := Frontend.set_searchHistory (remember entry (Frontend.searchHistory st)) st in
          Frontend.showAlert ("Búsqueda completada: " +:+ number_text (total_results d)
                     +:+ " resultados en " +:+ number_text (search_time_seconds d) +:+ "s")
                    "success" st
      | SearchRefused detail =>
          let thrown := Js.or_default detail "Error realizando la búsqueda" in
          Frontend.showAlert (Js.or_default (Some thrown) "Error realizando la búsqueda") "error" st
      | SearchThrew error_message =>
          Frontend.showAlert (Js.or_default error_message "Error realizando la búsqueda") "error" st
      end in
    (Frontend.set_searching false st, sent).
Proof.
  unfold Frontend.performSearch, Frontend.performSearch_begin, Frontend.performSearch_reply.
  destruct (negb (Js.truthy (Frontend.selectedIndex st))
            || negb (Js.truthy (Js.trim (Frontend.searchQuery st))));
    reflexivity.
Qed.

Lemma trimStart_blank (q : string) : Js.all Js.is_space q = true -> Js.trimStart q = "".
Proof.
  induction q as [|c q IH]; simpl; [reflexivity|].
  intros H. apply andb_true_iff in H as [Hc H]. rewrite Hc. now apply IH.
Qed.

Lemma trimEnd_blank (q : string) : Js.trimEnd q = "" -> Js.all Js.is_space q = true.
Proof.
  induction q as [|c q IH]; simpl; [reflexivity|].
  destruct (Js.trimEnd q) eqn:E; [|discriminate].
  destruct (Js.is_space c); [|discriminate]. intros _. now apply IH.
Qed.

Lemma trimStart_all (q : string) :
  Js.all Js.is_space (Js.trimStart q) = true -> Js.all Js.is_space q = true.
Proof.
  induction q as [|c q IH]; simpl; [reflexivity|].
  destruct (Js.is_space c) eqn:E; simpl.
  - exact IH.
  - rewrite E. simpl. discriminate.
Qed.

(** The queries that [trim] empties are the blank ones: empty, or white space
    only. *)
Lemma trim_blank_iff (q : string) : Js.trim q = "" <-> Js.all Js.is_space q = true.
Proof.
  unfold Js.trim. split.
  - intros H. apply trimStart_all. now apply trimEnd_blank.
  - intros H. now rewrite (trimStart_blank q H).
Qed.

(** C5. With a query that is empty or white space only, [performSearch]
    sends no request: it shows an error alert and leaves everything else as
    it was. *)
Theorem empty_query_is_an_error (reply : search_reply) (now : Z) (st : state) :
  Js.all Js.is_space (searchQuery st) = true ->
  exists msg, msg <> "" /\ performSearch reply now st = (showAlert msg "error" st, []).
Proof.
  intros H. apply trim_blank_iff in H. rewrite performSearch_uninterrupted.
  destruct (negb (Js.truthy_opt (sessionId st))); [eexists; split; [|reflexivity]; discriminate|].
  rewrite H. rewrite orb_true_r. eexists; split; [|reflexivity]; discriminate.
Qed.

Lemma empty_query_is_an_error_witness :
  snd (performSearch (SearchDone found0) 0
         (set_searchQuery "   " (fst (mounted browser0 (IndicesDone listed0) data ∅)).1)) = [].
Proof.
  destruct (empty_query_is_an_error (SearchDone found0) 0
              (set_searchQuery "   " (fst (mounted browser0 (IndicesDone listed0) data ∅)).1)
              eq_refl) as (msg & _ & E).
  rewrite E. reflexivity.
Defined.

Lemma Frontend_empty_query_is_an_error (reply : search_reply) (now : Z) (st : Frontend.state) :
  Js.all Js.is_space (Frontend.searchQuery st) = true ->
  exists msg, msg <> ""
    /\ Frontend.performSearch reply now st = (Frontend.showAlert msg "error" st, []).
Proof.
  intros H. apply trim_blank_iff in H. rewrite Frontend_performSearch_uninterrupted.
  rewrite H. rewrite orb_true_r. eexists; split; [|reflexivity]; discriminate.
Qed.

Lemma find_first {A : Type} (p : A -> bool) (before after : list A) (x : A) :
  (forall y, In y before -> p y = false) -> p x = true ->
  List.find p (before ++ x :: after)%list = Some x.
Proof.
  intros Hb Hx. induction before as [|y before IH]; simpl.
  - now rewrite Hx.
  - rewrite (Hb y) by now left. apply IH. intros z Hz. apply Hb. now right.
Qed.

Lemma text_column_names (cols : list column) (n : string) :
  In n (List.map col_name (List.filter (fun c => col_type c =? "text") cols))
  <-> exists c, In c cols /\ col_type c = "text" /\ col_name c = n.
Proof.
  rewrite in_map_iff. split.
  - intros (c & E & H). apply filter_In in H as [H T]. apply String.eqb_eq in T. now exists c.
  - intros (c & H & T & E). exists c. split; [exact E|].
    apply filter_In. split; [exact H|]. now apply String.eqb_eq.
Qed.

(** A search that is sent carries the selection, the query and the size of
    the form, and [textColumns] as its aggregation fields. *)
Lemma performSearch_request (reply : search_reply) (now : Z) (st : state) (r : request) :
  In r (snd (performSearch reply now st)) ->
  r = PostSearch (selectedIndex st) (searchQuery st) (searchSize st) (textColumns st)
                 (sessionId st)
  /\ Js.truthy_opt (sessionId st) = true
  /\ selectedIndex st <> ""
  /\ Js.trim (searchQuery st) <> "".
Proof.
  rewrite !performSearch_uninterrupted.
  destruct (Js.truthy_opt (sessionId st)) eqn:S; simpl; [|tauto].
  destruct (Js.truthy (selectedIndex st)) eqn:I; simpl; [|tauto].
  destruct (Js.truthy (Js.trim (searchQuery st))) eqn:Q; simpl; [|tauto].
  intros [<-|[]]. apply truthy_true in I, Q. auto.
Qed.

(** Without an entry of the selected name in the list, no field is sent. *)
Lemma textColumns_unlisted (st : state) :
  (forall i, In i (indices st) -> full_name i <> selectedIndex st) -> textColumns st = [].
Proof.
  intros H. unfold textColumns.
  destruct (List.find _ (indices st)) as [i|] eqn:F; [|reflexivity].
  apply find_some in F as [Hi E]. apply String.eqb_eq in E. now destruct (H i Hi).
Qed.

(** C7. The aggregation fields of a search request are the names of the
    columns of type [text] of the selected index (the first entry of the list
    under the selected name): every such name is sent, and nothing else. *)
Theorem agg_fields_are_text_columns (reply : search_reply) (now : Z) (st : state)
  (index_name query : string) (size : number) (agg_fields : list string)
  (session_id : option string) (before after : list index_entry) (selected : index_entry) :
  snd (performSearch reply now st)
  = [PostSearch index_name query size agg_fields session_id] ->
  indices st = (before ++ selected :: after)%list ->
  full_name selected = selectedIndex st ->
  (forall i, In i before -> full_name i <> selectedIndex st) ->
  index_name = selectedIndex st
  /\ agg_fields
     = List.map col_name (List.filter (fun c => col_type c =? "text") (columns selected))
  /\ (forall n, In n agg_fields <->
                exists c, In c (columns selected) /\ col_type c = "text" /\ col_name c = n).
Proof.
  intros Hs Hi Hn Hb.
  destruct (performSearch_request reply now st
              (PostSearch index_name query size agg_fields session_id)) as (E & _).
  { rewrite Hs. now left. }
  injection E as -> -> -> -> ->.
  assert (T : textColumns st
              = List.map col_name
                  (List.filter (fun c => col_type c =? "text") (columns selected))).
  { unfold textColumns. rewrite Hi, (find_first _ before after selected); [reflexivity| |].
    - intros y Hy. apply String.eqb_neq. now apply Hb.
    - now apply String.eqb_eq. }
  split; [reflexivity|]. split; [exact T|].
  intros n. rewrite T. apply text_column_names.
Qed.

Lemma agg_fields_are_text_columns_witness :
  exists c, In c [ {| col_name := "city"; col_type := "text" |};
                   {| col_name := "amount"; col_type := "float" |};
                   {| col_name := "client"; col_type := "text" |} ]
            /\ col_type c = "text" /\ col_name c = "client".
Proof.
  apply (agg_fields_are_text_columns (SearchDone found0) 0 searching0
           ("temp-" +:+ uuid0 +:+ "-sales") "madrid" (Num "10") ["city"; "client"]
           (Some uuid0) [] (List.map to_entry (tail listed0))
           (to_entry {| listed_name := "temp-" +:+ uuid0 +:+ "-sales";
                        listed_columns := [ {| col_name := "city"; col_type := "text" |};
                                            {| col_name := "amount"; col_type := "float" |};
                                            {| col_name := "client"; col_type := "text" |} ] |})).
  - vm_compute. reflexivity.
  - vm_compute. reflexivity.
  - vm_compute. reflexivity.
  - intros i [].
  - simpl. auto.
Defined.

Lemma Frontend_performSearch_request (reply : search_reply) (now : Z) (st : Frontend.state)
  (r : Frontend.request) :
  In r (snd (Frontend.performSearch reply now st)) ->
  r = Frontend.PostSearch (Frontend.selectedIndex st) (Frontend.searchQuery st)
        (Frontend.searchSize st) (Frontend.textColumns st)
  /\ Frontend.selectedIndex st <> ""
  /\ Js.trim (Frontend.searchQuery st) <> "".
Proof.
  rewrite !Frontend_performSearch_uninterrupted.
  destruct (Js.truthy (Frontend.selectedIndex st)) eqn:I; simpl; [|tauto].
  destruct (Js.truthy (Js.trim (Frontend.searchQuery st))) eqn:Q; simpl; [|tauto].
  intros [<-|[]]. apply truthy_true in I, Q. auto.
Qed.

Lemma Frontend_textColumns_selected (st : Frontend.state)
  (before after : list listed_index) (selected : listed_index) :
  Frontend.indices st = (before ++ selected :: after)%list ->
  listed_name selected = Frontend.selectedIndex st ->
  (forall i, In i before -> listed_name i <> Frontend.selectedIndex st) ->
  forall n, In n (Frontend.textColumns st) <->
            exists c, In c (listed_columns selected) /\ col_type c = "text" /\ col_name c = n.
Proof.
  intros Hi Hn Hb n. unfold Frontend.textColumns.
  rewrite Hi, (find_first _ before after selected).
  - apply text_column_names.
  - intros y Hy. apply String.eqb_neq. now apply Hb.
  - now apply String.eqb_eq.
Qed.

(** ** The search history *)

Lemma remember_below (e : history_entry) (h : list history_entry) :
  (length h < 10)%nat -> remember e h = (h ++ [e])%list.
Proof.
  intros H. unfold remember. rewrite length_app. simpl.
  destruct (Nat.ltb_spec 10 (length h + 1)); [lia | reflexivity].
Qed.

Lemma remember_full (e : history_entry) (h : list history_entry) :
  (10 <= length h)%nat -> remember e h = (tail h ++ [e])%list.
Proof.
  intros H. unfold remember. rewrite length_app. simpl.
  destruct (Nat.ltb_spec 10 (length h + 1)); [|lia].
  destruct h; [simpl in H; lia | reflexivity].
Qed.

Lemma remember_length (e : history_entry) (h : list history_entry) :
  (length h <= 10)%nat -> (length (remember e h) <= 10)%nat.
Proof.
  intros H. destruct (Nat.lt_ge_cases (length h) 10) as [L|L].
  - rewrite remember_below by exact L. rewrite length_app. simpl. lia.
  - rewrite remember_full by exact L. rewrite length_app. simpl.
    destruct h; simpl in *; lia.
Qed.

Lemma loadIndices_history (reply : indices_reply) (st : state) :
  searchHistory (fst (loadIndices reply st)) = searchHistory st.
Proof.
  unfold loadIndices.
  destruct (negb (Js.truthy_opt (sessionId st))); [reflexivity|].
  destruct reply as [|listed]; [reflexivity|].
  destruct (indices (set_indices (List.map to_entry listed) st)); [reflexivity|].
  destruct (negb _); reflexivity.
Qed.

Lemma uploadCSV_history (reply : upload_reply) (reloaded : indices_reply) (st : state) :
  searchHistory (fst (uploadCSV reply reloaded st)) = searchHistory st.
Proof.
  unfold uploadCSV.
  destruct (negb (Js.truthy_opt (sessionId st))); [reflexivity|].
  destruct (selectedFile st); [|reflexivity].
  destruct (negb (Js.truthy (indexName st))); [reflexivity|].
  destruct reply; [reflexivity|].
  match goal with
  | |- context [loadIndices reloaded ?s] =>
      pose proof (loadIndices_history reloaded s) as H; destruct (loadIndices reloaded s)
  end.
  simpl in *. exact H.
Qed.

(** The history after [performSearch]: one entry more under the rule of
    [remember] when the search completed, the same history otherwise. *)
Lemma performSearch_history (reply : search_reply) (now : Z) (st : state) :
  searchHistory (fst (performSearch reply now st))
  = match reply, snd (performSearch reply now st) with
    | SearchDone d, _ :: _ =>
        remember {| query := searchQuery st; time := search_time_seconds d;
                    results := total_results d; timestamp := now |} (searchHistory st)
    | _, _ => searchHistory st
    end.
Proof.
  destruct reply; rewrite !performSearch_uninterrupted;
    (destruct (negb (Js.truthy_opt (sessionId st))); [reflexivity|]);
    destruct (negb (Js.truthy (selectedIndex st))
              || negb (Js.truthy (Js.trim (searchQuery st))));
    reflexivity.
Qed.

Lemma performSearch_capped (reply : search_reply) (now : Z) (st : state) :
  (length (searchHistory st) <= 10)%nat ->
  (length (searchHistory (fst (performSearch reply now st))) <= 10)%nat.
Proof.
  intros H. rewrite performSearch_history.
  destruct reply; try exact H.
  destruct (snd _); [exact H|]. now apply remember_length.
Qed.

(** The two parts of [performSearch] on the history: the request leaves it,
    the reply adds at most one entry under the rule of [remember]. *)
Lemma performSearch_begin_history (st : state) :
  searchHistory (fst (performSearch_begin st)) = searchHistory st.
Proof.
  unfold performSearch_begin.
  destruct (negb (Js.truthy_opt (sessionId st))); [reflexivity|].
  destruct (negb (Js.truthy (selectedIndex st)) || negb (Js.truthy (Js.trim (searchQuery st))));
    reflexivity.
Qed.

Lemma performSearch_reply_history (reply : search_reply) (now : Z) (st : state) :
  searchHistory (performSearch_reply reply now st)
  = match reply with
    | SearchDone d =>
        remember {| query := searchQuery st; time := search_time_seconds d;
                    results := total_results d; timestamp := now |} (searchHistory st)
    | _ => searchHistory st
    end.
Proof. destruct reply; reflexivity. Qed.

Lemma step_capped (e : event) (sys : state * gmap string string) :
  (length (searchHistory (fst sys)) <= 10)%nat ->
  (length (searchHistory (fst (step sys e))) <= 10)%nat.
Proof.
  destruct sys as [st storage]. intros H. destruct e; simpl; try exact H.
  - unfold mounted. destruct (initializeSession b data storage) as [st1 storage1] eqn:I.
    pose proof (loadIndices_history reply st1) as L.
    destruct (loadIndices reply st1) as [st2 sent]. simpl in *. rewrite L.
    unfold initializeSession in I.
    destruct (negb _) in I; injection I as <- _; simpl; lia.
  - destruct f as [fl|]; simpl; [|exact H]. destruct (file_type fl =? "text/csv"); exact H.
  - now rewrite uploadCSV_history.
  - now rewrite loadIndices_history.
  - now apply performSearch_capped.
  - unfold updateChart. destruct (_ <? _)%nat; [exact H|]. destruct (negb ctx); exact H.
  - now rewrite performSearch_begin_history.
  - destruct reply; simpl; try exact H. now apply remember_length.
Qed.

(** The bound on the history holds in every state that a run reaches. *)
Lemma run_capped (events : list event) (sys : state * gmap string string) :
  (length (searchHistory (fst sys)) <= 10)%nat ->
  (length (searchHistory (fst (run events sys))) <= 10)%nat.
Proof.
  revert sys. induction events as [|e events IH]; intros sys H; [exact H|].
  rewrite run_cons. apply IH. now apply step_capped.
Qed.

(** C6. In every state the page reaches from its initial data, the history
    holds at most 10 entries.  A search completed in such a state adds its
    entry at the end; when the history held 10 entries already, the first
    (oldest) one is dropped and the others keep their order. *)
Theorem search_history_capped (events : list event) (storage : gmap string string)
  (d : search_data) (now : Z) :
  let st := fst (run events (data, storage)) in
  let entry := {| query := searchQuery st; time := search_time_seconds d;
                  results := total_results d; timestamp := now |} in
  (length (searchHistory st) <= 10)%nat
  /\ (snd (performSearch (SearchDone d) now st) <> [] ->
      searchHistory (fst (performSearch (SearchDone d) now st))
      = (if (length (searchHistory st) <? 10)%nat
         then searchHistory st ++ [entry]
         else tail (searchHistory st) ++ [entry])%list
      /\ (length (searchHistory (fst (performSearch (SearchDone d) now st))) <= 10)%nat).
Proof.
  intros st entry.
  assert (C : (length (searchHistory st) <= 10)%nat).
  { subst st. apply run_capped. simpl. lia. }
  split; [exact C|]. intros Hs. split.
  - rewrite performSearch_history. destruct (snd _); [congruence|]. fold entry.
    destruct (Nat.ltb_spec (length (searchHistory st)) 10).
    + now apply remember_below.
    + now apply remember_full.
  - now apply performSearch_capped.
Qed.

Lemma search_history_capped_witness :
  List.map query
    (searchHistory
       (fst (performSearch (SearchDone found0) 0
               (fst (run (searches ["a"; "b"; "c"; "d"; "e"; "f"; "g"; "h"; "i"; "j"; "k"])
                         (data, ∅))))))
  = ["c"; "d"; "e"; "f"; "g"; "h"; "i"; "j"; "k"; "k"].
Proof.
  destruct (search_history_capped
              (searches ["a"; "b"; "c"; "d"; "e"; "f"; "g"; "h"; "i"; "j"; "k"])
              ∅ found0 0) as [_ H].
  destruct H as [E _].
  - vm_compute. discriminate.
  - rewrite E. vm_compute. reflexivity.
Defined.

Module FrontendHistory.
Import Frontend FrontendRun.

Lemma Frontend_loadIndices_history (reply : indices_reply) (st : state) :
  searchHistory (fst (loadIndices reply st)) = searchHistory st.
Proof.
  unfold loadIndices. destruct reply as [|listed]; [reflexivity|].
  destruct (indices (set_indices listed st)); [reflexivity|].
  destruct (negb _); reflexivity.
Qed.

Lemma Frontend_uploadCSV_history (reply : upload_reply) (reloaded : indices_reply) (st : state) :
  searchHistory (fst (uploadCSV reply reloaded st)) = searchHistory st.
Proof.
  unfold uploadCSV.
  destruct (selectedFile st); [|reflexivity].
  destruct (negb (Js.truthy (indexName st))); [reflexivity|].
  destruct reply; [reflexivity|].
  match goal with
  | |- context [loadIndices reloaded ?s] =>
      pose proof (Frontend_loadIndices_history reloaded s) as H; destruct (loadIndices reloaded s)
  end.
  simpl in *. exact H.
Qed.

Lemma Frontend_performSearch_history (reply : search_reply) (now : Z) (st : state) :
  searchHistory (fst (performSearch reply now st))
  = match reply, snd (performSearch reply now st) with
    | SearchDone d, _ :: _ =>
        remember {| query := searchQuery st; time := search_time_seconds d;
                    results := total_results d; timestamp := now |} (searchHistory st)
    | _, _ => searchHistory st
    end.
Proof.
  destruct reply; rewrite !Frontend_performSearch_uninterrupted;
    destruct (negb (Js.truthy (selectedIndex st))
              || negb (Js.truthy (Js.trim (searchQuery st))));
    reflexivity.
Qed.

Lemma Frontend_step_capped (e : event) (st : state) :
  (length (searchHistory st) <= 10)%nat ->
  (length (searchHistory (step st e)) <= 10)%nat.
Proof.
  intros H. destruct e; simpl; try exact H.
  - unfold mounted. rewrite Frontend_loadIndices_history. simpl. lia.
  - destruct f as [fl|]; simpl; [|exact H]. destruct (file_type fl =? "text/csv"); exact H.
  - now rewrite Frontend_uploadCSV_history.
  - now rewrite Frontend_loadIndices_history.
  - rewrite Frontend_performSearch_history. destruct reply; try exact H.
    destruct (snd _); [exact H|]. now apply remember_length.
  - unfold updateChart. destruct (_ <? _)%nat; [exact H|]. destruct (negb ctx); exact H.
  - unfold performSearch_begin.
    destruct (negb (Js.truthy (selectedIndex st)) || negb (Js.truthy (Js.trim (searchQuery st))));
      exact H.
  - destruct reply; simpl; try exact H. now apply remember_length.
Qed.

(** The earlier revision keeps the same bound on its history. *)
Lemma Frontend_run_capped (events : list event) (st : state) :
  (length (searchHistory st) <= 10)%nat ->
  (length (searchHistory (run events st)) <= 10)%nat.
Proof.
  revert st. induction events as [|e events IH]; intros st H; [exact H|].
  change (run (e :: events) st) with (run events (step st e)).
  apply IH. now apply Frontend_step_capped.
Qed.

Lemma Frontend_reachable_capped (events : list event) :
  (length (searchHistory (run events data)) <= 10)%nat.
Proof. apply Frontend_run_capped. simpl. lia. Qed.

End FrontendHistory.

(** ** The unit of a file size *)

Section FileSizeProperties.

Local Open Scope R_scope.

Lemma ln_le (x y : R) : 0 < x -> x <= y -> ln x <= ln y.
Proof.
  intros Hx [H| ->]; [left; now apply ln_increasing | right; reflexivity].
Qed.

Lemma ln_2_lt_1 : ln 2 < 1.
Proof.
  rewrite <- (ln_exp 1). apply ln_increasing; [lra|].
  pose proof (exp_ineq1 1). lra.
Qed.

Lemma ln_below (eps : R) : 0 < eps < 1 -> ln (1 - eps) <= - eps.
Proof.
  intros H. rewrite <- (ln_exp (- eps)). apply ln_le; [lra|].
  pose proof (exp_ineq1_le (- eps)). lra.
Qed.

Lemma ln_1024 : ln 1024 = 10 * ln 2.
Proof.
  replace 1024 with (2 ^ 10) by lra. rewrite ln_pow by lra. simpl. lra.
Qed.

Lemma ln_count (x : R) : 1 <= x <= 2 ^ 40 - 1 -> 0 <= ln x <= 40 * ln 2 - / 2 ^ 40.
Proof.
  intros [H1 H2]. split.
  - rewrite <- ln_1. apply ln_le; lra.
  - apply Rle_trans with (ln (2 ^ 40 - 1)); [apply ln_le; lra|].
    replace (2 ^ 40 - 1) with (2 ^ 40 * (1 - / 2 ^ 40)) by (field; lra).
    rewrite ln_mult; [| lra | lra ].
    rewrite ln_pow by lra.
    pose proof (ln_below (/ 2 ^ 40)) as B.
    replace (INR 40) with 40 by (simpl; lra). lra.
Qed.

Lemma Rabs_between (x y e : R) : Rabs (x - y) <= e -> y - e <= x <= y + e.
Proof. unfold Rabs. destruct (Rcase_abs (x - y)); lra. Qed.

Lemma Math_floor_bounds (q : R) (m : Z) :
  0 <= q < IZR m -> (0 <= Math_floor q < m)%Z.
Proof.
  intros [H0 H1]. unfold Math_floor.
  destruct (base_Int_part q) as [B1 B2]. split.
  - assert (H : (-1 < Int_part q)%Z) by (apply lt_IZR; lra). lia.
  - apply lt_IZR. lra.
Qed.

Lemma count_in_range (n : Z) :
  (1 <= n < 2 ^ 40)%Z ->
  1 <= IZR n <= 2 ^ 40 - 1 /\ (IZR n = 1 \/ 2 <= IZR n).
Proof.
  intros [H1 H2].
  assert (B2 : (n <= 1099511627775)%Z) by lia.
  split; [split|].
  - now apply IZR_le.
  - apply IZR_le in B2. lra.
  - destruct (Z.eq_dec n 1%Z) as [-> | Hne]; [now left | right].
    apply IZR_le. lia.
Qed.

Section Bounds.

Variable Math_log : R -> R.
Variable divide : R -> R -> R.
Hypothesis log_ok : accurate_log Math_log.
Hypothesis divide_ok : accurate_division divide.

Lemma quotient_bounds (n : Z) :
  (1 <= n < 2 ^ 40)%Z ->
  0 <= divide (Math_log (IZR n)) (Math_log 1024) < 4.
Proof.
  intros Hn.
  destruct (count_in_range n Hn) as [Hx Hint].
  set (x := IZR n) in *.
  pose proof ln_lt_2 as A1. pose proof ln_2_lt_1 as A2.
  pose proof (ln_count x Hx) as [L0 L1].
  assert (M1 : ln x * (1 - log_error) <= Math_log x <= ln x * (1 + log_error)).
  { pose proof (Rabs_between _ _ _ (log_ok n ltac:(lia))). fold x in H. lra. }
  assert (M2 : 10 * ln 2 * (1 - log_error) <= Math_log 1024 <= 10 * ln 2 * (1 + log_error)).
  { pose proof (Rabs_between _ _ _ (log_ok 1024%Z ltac:(lia))) as H.
    rewrite ln_1024 in H. lra. }
  unfold log_error in *.
  assert (Y : 1 <= Math_log 1024 <= 16) by lra.
  assert (X : Math_log x = 0 \/ / 4 <= Math_log x <= 64).
  { destruct Hint as [-> | H2].
    - left. rewrite ln_1 in M1. lra.
    - right. assert (ln 2 <= ln x) by (apply ln_le; lra). nra. }
  pose proof (Rabs_between _ _ _ (divide_ok _ _ X Y)) as Q.
  unfold division_error in Q.
  set (q := Math_log x / Math_log 1024) in *.
  assert (Q0 : 0 <= q).
  { unfold q. apply Rmult_le_pos; [nra|]. left. apply Rinv_0_lt_compat. lra. }
  assert (Q1 : q * (1 + / 2 ^ 53) < 4).
  { apply Rmult_lt_reg_r with (Math_log 1024); [lra|].
    replace (q * (1 + / 2 ^ 53) * Math_log 1024) with (Math_log x * (1 + / 2 ^ 53))
      by (unfold q; field; lra).
    nra. }
  split; nra.
Qed.

End Bounds.

Lemma formatFileSize_zero (Math_log : R -> R) (divide : R -> R -> R)
  (scaled_text : N -> Z -> string) :
  formatFileSize Math_log divide scaled_text 0 = "0 Bytes".
Proof. reflexivity. Qed.

(** C10. [formatFileSize(0)] is ["0 Bytes"], whatever [Math.log] is: the
    logarithm is not consulted.  For a byte count from 1 to [1024^4 - 1], with
    the arithmetic of the browser as accurate as stated above, the unit index
    is between 0 and 3, so [sizes[i]] is defined and the result ends with one
    of the four units. *)
Theorem formatFileSize_unit_defined (Math_log : R -> R) (divide : R -> R -> R)
  (scaled_text : N -> Z -> string) (bytes : N) :
  accurate_log Math_log -> accurate_division divide ->
  formatFileSize Math_log divide scaled_text 0 = "0 Bytes"
  /\ ((1 <= bytes < 1024 ^ 4)%N ->
      (0 <= unit_index Math_log divide bytes <= 3)%Z
      /\ exists u, element sizes (unit_index Math_log divide bytes) = Some u
                   /\ formatFileSize Math_log divide scaled_text bytes
                      = scaled_text bytes (unit_index Math_log divide bytes) +:+ " " +:+ u).
Proof.
  intros Hl Hd. split; [reflexivity|]. intros Hb.
  assert (Hn : (1 <= Z.of_N bytes < 2 ^ 40)%Z).
  { change (1024 ^ 4)%N with 1099511627776%N in Hb. lia. }
  pose proof (quotient_bounds Math_log divide Hl Hd _ Hn) as Q.
  assert (I : (0 <= unit_index Math_log divide bytes < 4)%Z).
  { unfold unit_index. now apply Math_floor_bounds. }
  split; [lia|].
  unfold formatFileSize. destruct (N.eqb_spec bytes 0) as [-> | _]; [lia|].
  cbv zeta. set (i := unit_index Math_log divide bytes) in *.
  assert (E : (i = 0 \/ i = 1 \/ i = 2 \/ i = 3)%Z) by lia.
  destruct E as [-> | [-> | [-> | ->]]]; eexists; split; reflexivity.
Qed.

Lemma accurate_log_ln : accurate_log ln.
Proof.
  intros n Hn. replace (ln (IZR n) - ln (IZR n)) with 0 by lra. rewrite Rabs_R0.
  apply Rmult_le_pos.
  - unfold log_error. left. apply Rinv_0_lt_compat. lra.
  - rewrite <- ln_1. apply ln_le; [lra|]. apply IZR_le. lia.
Qed.

Lemma accurate_division_Rdiv : accurate_division Rdiv.
Proof.
  intros x y Hx Hy. replace (x / y - x / y) with 0 by lra. rewrite Rabs_R0.
  apply Rmult_le_pos.
  - unfold division_error. left. apply Rinv_0_lt_compat. lra.
  - apply Rmult_le_pos; [lra|]. left. apply Rinv_0_lt_compat. lra.
Qed.

Lemma formatFileSize_unit_defined_witness :
  (0 <= unit_index ln Rdiv 1536 <= 3)%Z.
Proof.
  apply (formatFileSize_unit_defined ln Rdiv (fun _ _ => "1.5") 1536
           accurate_log_ln accurate_division_Rdiv).
  vm_compute. split; [discriminate | reflexivity].
Defined.

End FileSizeProperties.

(** * Further properties of the methods *)

Lemma normalize_fixes (s : string) : Js.all name_char s = true -> normalize s = s.
Proof.
  unfold normalize, sanitize, Js.toLowerCase. rewrite map_map.
  induction s as [|c s IH]; simpl; [reflexivity|].
  intros H. apply andb_true_iff in H as [Hc H].
  rewrite (lower_unit_name_char c Hc), Hc, (IH H). reflexivity.
Qed.

(** X1. The names that normalisation leaves as they are, are the names within
    the class [[a-z0-9_-]]; so normalising twice is normalising once. *)
Theorem normalize_fixed_points (s : string) :
  (normalize s = s <-> Js.all name_char s = true)
  /\ normalize (normalize s) = normalize s.
Proof.
  split; [split|].
  - intros E. rewrite <- E. unfold normalize. apply sanitize_restricted.
  - apply normalize_fixes.
  - apply normalize_fixes. unfold normalize. apply sanitize_restricted.
Qed.

Lemma map_append (f : ascii -> ascii) (s t : string) :
  Js.map f (s +:+ t) = Js.map f s +:+ Js.map f t.
Proof.
  induction s as [|c s IH]; rewrite ?append_nil, ?append_cons; simpl;
    [reflexivity | now rewrite IH, append_cons].
Qed.

Lemma normalize_append (s t : string) : normalize (s +:+ t) = normalize s +:+ normalize t.
Proof. unfold normalize, sanitize, Js.toLowerCase. now rewrite !map_append. Qed.

(** Before the first dot nothing is replaced. *)
Lemma replace_first_no_dot (base rest : string) :
  no_dot base = true ->
  Js.replace_first ".csv" "" (base +:+ rest) = base +:+ Js.replace_first ".csv" "" rest.
Proof.
  unfold no_dot. induction base as [|c base IH]; intros H;
    rewrite ?append_nil, ?append_cons; [reflexivity|].
  simpl in H. apply andb_true_iff in H as [Hc H].
  apply negb_true_iff in Hc.
  cbn [Js.replace_first String.prefix]. 
  destruct (ascii_dec "." c) as [<- | Hne]; [discriminate Hc|].
  now rewrite (IH H).
Qed.

(** X2. The proposed index name for a CSV file [<base>.csv] whose base has no
    dot is the normalised base.  The extension is removed as it is written,
    in lower case, and once: [.CSV] and a second [.csv] stay, as [_csv]. *)
Theorem handleFileSelect_extension (fl : file) (st : state) (base : string) :
  file_type fl = "text/csv" -> no_dot base = true ->
  (file_name fl = base +:+ ".csv" ->
   indexName (handleFileSelect (Some fl) st) = normalize base)
  /\ (file_name fl = base +:+ ".CSV" ->
      indexName (handleFileSelect (Some fl) st) = normalize base +:+ "_csv")
  /\ (file_name fl = base +:+ ".csv.csv" ->
      indexName (handleFileSelect (Some fl) st) = normalize base +:+ "_csv").
Proof.
  intros T D.
  destruct (handleFileSelect_indexName fl st T) as [E _]. rewrite E.
  unfold autoIndexName.
  split; [|split]; intros ->; rewrite (replace_first_no_dot base _ D), normalize_append.
  - change (Js.replace_first ".csv" "" ".csv") with "". 
    change (normalize "") with "". 
    clear. induction (normalize base) as [|c s IH]; rewrite ?append_nil, ?append_cons;
      [reflexivity | now rewrite IH].
  - reflexivity.
  - reflexivity.
Qed.

Lemma handleFileSelect_extension_witness :
  indexName (handleFileSelect
               (Some {| file_name := "Ventas 2024.CSV"; file_type := "text/csv" |}) data)
  = "ventas_2024_csv".
Proof.
  apply (proj1 (proj2 (handleFileSelect_extension
                         {| file_name := "Ventas 2024.CSV"; file_type := "text/csv" |}
                         data "Ventas 2024" eq_refl eq_refl))).
  reflexivity.
Defined.

Lemma uuid_digit_x (r : N) :
  (r < 16)%N -> exists d, uuid_digit "x" r = String d "" /\ lower_hex d = true.
Proof.
  intros H. rewrite <- (N2Nat.id r).
  assert (Hn : (N.to_nat r < 16)%nat) by lia.
  generalize dependent (N.to_nat r). intros n Hn.
  do 16 (destruct n as [|n]; [eexists; split; reflexivity|]). lia.
Qed.

Lemma uuid_digit_y (r : N) :
  (r < 16)%N ->
  exists d, uuid_digit "y" r = String d ""
            /\ (d = "8" \/ d = "9" \/ d = "a" \/ d = "b")%char.
Proof.
  intros H. rewrite <- (N2Nat.id r).
  assert (Hn : (N.to_nat r < 16)%nat) by lia.
  generalize dependent (N.to_nat r). intros n Hn.
  do 16 (destruct n as [|n]; [eexists; split; [reflexivity | tauto]|]). lia.
Qed.

(** X3. Without [crypto.randomUUID], the token generated is of the shape of a
    UUID, in lower case, with the version digit 4 and a variant digit among
    8, 9, a and b. *)
Theorem generateUUID_version_4 (b : browser) :
  randomUUID b = None -> (forall k, (draws b k < 16)%N) ->
  uuid_shaped (generateUUID b) = true
  /\ Js.all (fun c => lower_hex c || Ascii.eqb c "-") (generateUUID b) = true
  /\ String.get 14 (generateUUID b) = Some "4"%char
  /\ (exists d, String.get 19 (generateUUID b) = Some d
                /\ (d = "8" \/ d = "9" \/ d = "a" \/ d = "b")%char).
Proof.
  intros Hc Hd. unfold generateUUID. rewrite Hc.
  cbn [fill Ascii.eqb Bool.eqb orb].
  destruct (uuid_digit_y (draws b 15) (Hd 15%nat)) as (y & Ey & Hy). rewrite Ey.
  repeat match goal with
         | |- context [uuid_digit "x" (draws b ?k)] =>
             let d := fresh "d" in
             let E := fresh "E" in
             let Hx := fresh "Hx" in
             destruct (uuid_digit_x (draws b k) (Hd k)) as (d & E & Hx); rewrite E; clear E
         end.
  rewrite !append_cons, !append_nil.
  assert (Yl : lower_hex y = true) by (destruct Hy as [-> | [-> | [-> | ->]]]; reflexivity).
  assert (Hex : forall c, lower_hex c = true -> Js.is_hex c = true).
  { intros c H. unfold Js.is_hex. unfold lower_hex in H. now rewrite H. }
  split; [|split; [|split]].
  - unfold uuid_shaped; cbn [uuid_from existsb Nat.eqb orb Ascii.eqb Bool.eqb].
    repeat match goal with
           | H : lower_hex ?c = true |- context [Js.is_hex ?c] => rewrite (Hex c H)
           end.
    reflexivity.
  - cbn [Js.all].
    repeat match goal with
           | H : lower_hex ?c = true |- context [lower_hex ?c] => rewrite H
           end.
    reflexivity.
  - reflexivity.
  - exists y. split; [reflexivity | exact Hy].
Qed.

Lemma generateUUID_version_4_witness :
  String.get 14 (generateUUID browser0) = Some "4"%char.
Proof.
  apply (generateUUID_version_4 browser0).
  - reflexivity.
  - intros k. simpl. apply N.mod_lt. discriminate.
Defined.

(** The session taken is the token left in the storage. *)
Lemma initializeSession_session (b : browser) (st : state) (storage : gmap string string) :
  sessionId (fst (initializeSession b st storage))
  = snd (initializeSession b st storage) !! "userSessionId".
Proof.
  unfold initializeSession.
  destruct (negb (Js.truthy_opt (storage !! "userSessionId"))) eqn:E; simpl.
  - now rewrite lookup_insert_eq.
  - reflexivity.
Qed.

(** X4. [initializeSession] reads and writes the key [userSessionId] only; with
    the key absent, or holding the empty string, the generated token is
    stored and taken. *)
Theorem initializeSession_storage (b : browser) (st : state) (storage : gmap string string) :
  (forall k, k <> "userSessionId" ->
             snd (initializeSession b st storage) !! k = storage !! k)
  /\ (storage !! "userSessionId" = None \/ storage !! "userSessionId" = Some "" ->
      initializeSession b st storage
      = (set_sessionId (Some (generateUUID b)) st,
         <["userSessionId" := generateUUID b]> storage))
  /\ sessionId (fst (initializeSession b st storage))
     = snd (initializeSession b st storage) !! "userSessionId".
Proof.
  unfold initializeSession. split; [|split].
  - intros k Hk. destruct (negb _); simpl; [|reflexivity].
    now rewrite lookup_insert_ne.
  - intros [-> | ->]; reflexivity.
  - apply initializeSession_session.
Qed.

Lemma initializeSession_storage_witness :
  initializeSession browser0 data {["userSessionId" := ""; "theme" := "dark"]}
  = (set_sessionId (Some (generateUUID browser0)) data,
     <["userSessionId" := generateUUID browser0]>
       {["userSessionId" := ""; "theme" := "dark"]}).
Proof.
  apply (initializeSession_storage browser0 data
           {["userSessionId" := ""; "theme" := "dark"]}).
  right. reflexivity.
Defined.

Lemma match_start_split (pat : list Js.item) (s rest : string) :
  Js.match_start pat s = Some rest ->
  exists p, s = p +:+ rest /\ String.length p = length pat.
Proof.
  revert s. induction pat as [|i pat IH]; intros s H.
  - apply match_start_nil in H. subst. now exists "".
  - apply match_start_cons in H as (c & s' & -> & _ & H).
    destruct (IH s' H) as (p & -> & L). exists (String c p).
    split; [now rewrite append_cons | simpl; now rewrite L].
Qed.

(** X5. The name displayed is the identifier itself, or the identifier without
    its first 42 characters, and then those are a session prefix. *)
Theorem display_name_suffix (identifier : string) :
  exists p, identifier = p +:+ display_name identifier
            /\ (p = "" \/ (String.length p = 42%nat /\ has_session_prefix identifier)).
Proof.
  unfold display_name, Js.replace_anchored.
  destruct (Js.match_start session_prefix identifier) as [rest|] eqn:E.
  - destruct (match_start_split _ _ _ E) as (p & -> & L). exists p.
    rewrite append_nil. split; [reflexivity|]. right. split; [exact L|].
    apply has_session_prefix_match. now exists rest.
  - exists "". split; [reflexivity | now left].
Qed.

Lemma or_default_not_empty (o : option string) (d : string) :
  d <> "" -> Js.or_default o d <> "".
Proof.
  intros Hd. unfold Js.or_default. destruct o as [s|]; [|exact Hd].
  destruct (Js.truthy s) eqn:T; [now apply truthy_true | exact Hd].
Qed.

(** X6. A search that does not complete (blocked by a guard, refused by the
    server, or failed) keeps the results, the metrics and the history shown
    and ends on an error alert whose message is never empty. *)
Theorem performSearch_failure (reply : search_reply) (now : Z) (st : state) :
  (forall d, reply <> SearchDone d) ->
  searchResults (fst (performSearch reply now st)) = searchResults st
  /\ searchMetrics (fst (performSearch reply now st)) = searchMetrics st
  /\ searchHistory (fst (performSearch reply now st)) = searchHistory st
  /\ type (alert (fst (performSearch reply now st))) = "error"
  /\ message (alert (fst (performSearch reply now st))) <> ""
  /\ (snd (performSearch reply now st) <> [] ->
      searching (fst (performSearch reply now st)) = false).
Proof.
  intros H. rewrite !performSearch_uninterrupted.
  destruct (negb (Js.truthy_opt (sessionId st)));
    [simpl; repeat split; congruence|].
  destruct (negb (Js.truthy (selectedIndex st)) || negb (Js.truthy (Js.trim (searchQuery st))));
    [simpl; repeat split; congruence|].
  destruct reply as [m | detail | d]; [| |now destruct (H d)]; simpl;
    repeat split; try reflexivity.
  - apply or_default_not_empty. discriminate.
  - destruct (Js.truthy _); [apply or_default_not_empty|]; discriminate.
Qed.

Lemma performSearch_failure_witness :
  searchResults (fst (performSearch (SearchRefused None) 0 searching0)) = [].
Proof.
  apply (performSearch_failure (SearchRefused None) 0 searching0). discriminate.
Defined.

(** [loadIndices] leaves the form and the session alone. *)
Lemma loadIndices_form (reply : indices_reply) (st : state) :
  selectedFile (fst (loadIndices reply st)) = selectedFile st
  /\ indexName (fst (loadIndices reply st)) = indexName st
  /\ sessionId (fst (loadIndices reply st)) = sessionId st
  /\ uploading (fst (loadIndices reply st)) = uploading st.
Proof.
  unfold loadIndices.
  destruct (negb (Js.truthy_opt (sessionId st))); [tauto|].
  destruct reply as [|listed]; [simpl; tauto|].
  destruct (indices (set_indices (List.map to_entry listed) st)); [simpl; tauto|].
  destruct (negb _); simpl; tauto.
Qed.

Lemma loadIndices_sent (reply : indices_reply) (st : state) (r : request) :
  In r (snd (loadIndices reply st)) ->
  r = GetIndices (sessionId st) /\ Js.truthy_opt (sessionId st) = true.
Proof.
  unfold loadIndices.
  destruct (Js.truthy_opt (sessionId st)) eqn:S; simpl; [|tauto].
  destruct reply as [|listed]; [simpl; intros [<-|[]]; auto|].
  destruct (List.map to_entry listed); [simpl; intros [<-|[]]; auto|].
  destruct (negb _); simpl; intros [<-|[]]; auto.
Qed.

Lemma uploadCSV_blocked (reply : upload_reply) (reloaded : indices_reply) (st : state) :
  Js.truthy_opt (sessionId st) = false \/ selectedFile st = None \/ indexName st = "" ->
  snd (uploadCSV reply reloaded st) = [].
Proof.
  intros H. unfold uploadCSV.
  destruct (Js.truthy_opt (sessionId st)); [|reflexivity]. simpl.
  destruct (selectedFile st); [|reflexivity].
  destruct (Js.truthy (indexName st)) eqn:T; [|reflexivity].
  apply truthy_true in T. destruct H as [H | [H | H]]; congruence.
Qed.

Lemma uploadCSV_guards (reply : upload_reply) (reloaded : indices_reply) (st : state) :
  snd (uploadCSV reply reloaded st) <> [] ->
  Js.truthy_opt (sessionId st) = true
  /\ (exists fl, selectedFile st = Some fl) /\ Js.truthy (indexName st) = true.
Proof.
  intros H.
  destruct (Js.truthy_opt (sessionId st)) eqn:S;
    [|exfalso; apply H, uploadCSV_blocked; now left].
  destruct (selectedFile st) as [fl|] eqn:F;
    [|exfalso; apply H, uploadCSV_blocked; right; now left].
  destruct (Js.truthy (indexName st)) eqn:T; [eauto|].
  apply truthy_false in T. exfalso; apply H, uploadCSV_blocked; right; now right.
Qed.

Lemma uploadCSV_failed (detail : option string) (reloaded : indices_reply) (st : state)
  (fl : file) :
  Js.truthy_opt (sessionId st) = true -> selectedFile st = Some fl ->
  Js.truthy (indexName st) = true ->
  uploadCSV (UploadFailed detail) reloaded st
  = (set_uploading false
       (showAlert (Js.or_default detail "Error cargando el archivo CSV") "error"
          (set_uploading true st)),
     [PostUploadCsv fl (indexName st) (sessionId st)]).
Proof. intros S F T. unfold uploadCSV. now rewrite S, F, T. Qed.

Lemma uploadCSV_done (c t : number) (reloaded : indices_reply) (st : state) (fl : file) :
  Js.truthy_opt (sessionId st) = true -> selectedFile st = Some fl ->
  Js.truthy (indexName st) = true ->
  exists st1 sent1,
    uploadCSV (UploadDone c t) reloaded st
    = (set_uploading false st1, PostUploadCsv fl (indexName st) (sessionId st) :: sent1)
    /\ selectedFile st1 = None /\ indexName st1 = "" /\ sessionId st1 = sessionId st
    /\ (forall r, In r sent1 -> r = GetIndices (sessionId st)).
Proof.
  intros S F T. unfold uploadCSV. rewrite S, F, T. cbv zeta. simpl negb. cbv iota.
  match goal with
  | |- context [loadIndices reloaded ?s] =>
      destruct (loadIndices_form reloaded s) as (L1 & L2 & L3 & L4);
      pose proof (fun r => loadIndices_sent reloaded s r) as L5;
      destruct (loadIndices reloaded s) as [st1 sent1]
  end.
  exists st1, sent1. simpl in *. repeat split; try assumption.
  intros r Hr. now apply L5.
Qed.

(** X7. After an upload that succeeded the form is empty, so [uploadCSV]
    called again sends nothing; after one that failed the file and the name
    are still in the form, and calling it again sends the same upload. *)
Theorem uploadCSV_form (reply : upload_reply) (reloaded : indices_reply) (st : state) :
  snd (uploadCSV reply reloaded st) <> [] ->
  uploading (fst (uploadCSV reply reloaded st)) = false
  /\ match reply with
     | UploadDone _ _ =>
         selectedFile (fst (uploadCSV reply reloaded st)) = None
         /\ indexName (fst (uploadCSV reply reloaded st)) = ""
         /\ forall reply' reloaded',
              snd (uploadCSV reply' reloaded' (fst (uploadCSV reply reloaded st))) = []
     | UploadFailed _ =>
         selectedFile (fst (uploadCSV reply reloaded st)) = selectedFile st
         /\ indexName (fst (uploadCSV reply reloaded st)) = indexName st
         /\ type (alert (fst (uploadCSV reply reloaded st))) = "error"
         /\ snd (uploadCSV reply reloaded (fst (uploadCSV reply reloaded st)))
            = snd (uploadCSV reply reloaded st)
     end.
Proof.
  intros H. destruct (uploadCSV_guards _ _ _ H) as (S & [fl F] & T).
  destruct reply as [detail | c t].
  - rewrite (uploadCSV_failed detail reloaded st fl S F T). simpl.
    repeat split; try reflexivity.
    unfold uploadCSV. simpl. now rewrite S, F, T.
  - destruct (uploadCSV_done c t reloaded st fl S F T) as (st1 & sent1 & E & F1 & N1 & _).
    rewrite E. simpl. repeat split; try assumption.
    intros reply' reloaded'. apply uploadCSV_blocked. right; now left.
Qed.

Lemma uploadCSV_form_witness :
  uploading (fst (uploadCSV (UploadDone (Num "3") (Num "0.2")) (IndicesDone listed0)
                    (handleFileSelect
                       (Some {| file_name := "sales.csv"; file_type := "text/csv" |})
                       searching0))) = false.
Proof.
  apply (uploadCSV_form (UploadDone (Num "3") (Num "0.2")) (IndicesDone listed0)
           (handleFileSelect (Some {| file_name := "sales.csv"; file_type := "text/csv" |})
              searching0)).
  vm_compute. discriminate.
Defined.

Lemma loadIndices_sends (reply : indices_reply) (st : state) :
  snd (loadIndices reply st)
  = if Js.truthy_opt (sessionId st) then [GetIndices (sessionId st)] else [].
Proof.
  unfold loadIndices. destruct (Js.truthy_opt (sessionId st)); simpl; [|reflexivity].
  destruct reply as [|listed]; [reflexivity|].
  destruct (List.map to_entry listed); [reflexivity|].
  destruct (negb _); reflexivity.
Qed.

(** X8. What [uploadCSV] sends, when it sends: the upload of the selected file
    under the name and the session of the form, followed by one reload of the
    list of indices when the upload succeeded, by nothing when it failed. *)
Theorem uploadCSV_requests (reply : upload_reply) (reloaded : indices_reply) (st : state) :
  snd (uploadCSV reply reloaded st) <> [] ->
  exists fl,
    selectedFile st = Some fl
    /\ indexName st <> ""
    /\ snd (uploadCSV reply reloaded st)
       = PostUploadCsv fl (indexName st) (sessionId st)
         :: match reply with
            | UploadDone _ _ => [GetIndices (sessionId st)]
            | UploadFailed _ => []
            end.
Proof.
  intros H. destruct (uploadCSV_guards _ _ _ H) as (S & [fl F] & T).
  exists fl. split; [exact F|]. split; [now apply truthy_true|].
  destruct reply as [detail | c t].
  - now rewrite (uploadCSV_failed detail reloaded st fl S F T).
  - unfold uploadCSV. rewrite S, F, T. cbv zeta. simpl negb. cbv iota.
    match goal with
    | |- context [loadIndices reloaded ?s] =>
        pose proof (loadIndices_sends reloaded s) as L;
        destruct (loadIndices reloaded s) as [st1 sent1]
    end.
    simpl in L. rewrite S in L. simpl. now rewrite L.
Qed.

Lemma uploadCSV_requests_witness :
  exists fl,
    Some {| file_name := "sales.csv"; file_type := "text/csv" |} = Some fl
    /\ "sales" <> ""
    /\ snd (uploadCSV (UploadDone (Num "3") (Num "0.2")) (IndicesDone listed0)
              (handleFileSelect
                 (Some {| file_name := "sales.csv"; file_type := "text/csv" |})
                 searching0))
       = [PostUploadCsv fl "sales" (Some uuid0); GetIndices (Some uuid0)].
Proof.
  apply (uploadCSV_requests (UploadDone (Num "3") (Num "0.2")) (IndicesDone listed0)
           (handleFileSelect (Some {| file_name := "sales.csv"; file_type := "text/csv" |})
              searching0)).
  vm_compute. discriminate.
Defined.

(** X9. A selection that is refused (no file, or a file whose type is not
    [text/csv]) shows an error and leaves the file and the name selected
    before in the form: [uploadCSV] then sends what it would have sent. *)
Theorem handleFileSelect_refused (f : option file) (st : state)
  (reply : upload_reply) (reloaded : indices_reply) :
  (forall fl, f = Some fl -> file_type fl <> "text/csv") ->
  selectedFile (handleFileSelect f st) = selectedFile st
  /\ indexName (handleFileSelect f st) = indexName st
  /\ type (alert (handleFileSelect f st)) = "error"
  /\ snd (uploadCSV reply reloaded (handleFileSelect f st))
     = snd (uploadCSV reply reloaded st).
Proof.
  intros H.
  assert (E : handleFileSelect f st
              = showAlert "Por favor selecciona un archivo CSV válido" "error" st).
  { unfold handleFileSelect. destruct f as [fl|]; [|reflexivity].
    specialize (H fl eq_refl). apply String.eqb_neq in H. now rewrite H. }
  rewrite E. repeat split.
Qed.

Lemma handleFileSelect_refused_witness :
  snd (uploadCSV (UploadFailed None) IndicesFailed
         (handleFileSelect (Some {| file_name := "notes.txt"; file_type := "text/plain" |})
            (handleFileSelect (Some {| file_name := "sales.csv"; file_type := "text/csv" |})
               searching0)))
  = [PostUploadCsv {| file_name := "sales.csv"; file_type := "text/csv" |} "sales"
       (Some uuid0)].
Proof.
  rewrite (proj2 (proj2 (proj2
    (handleFileSelect_refused
       (Some {| file_name := "notes.txt"; file_type := "text/plain" |})
       (handleFileSelect (Some {| file_name := "sales.csv"; file_type := "text/csv" |})
          searching0)
       (UploadFailed None) IndicesFailed
       ltac:(intros fl [= <-]; discriminate))))).
  vm_compute. reflexivity.
Defined.

(** X10. Selecting an entry of the list and searching sends the full name of
    the entry, the identifier the server listed, whatever name is displayed
    for it. *)
Theorem selectIndex_then_search (listed : list listed_index) (index : index_entry)
  (reply : search_reply) (now : Z) (st : state) (r : request) :
  In index (List.map to_entry listed) ->
  In r (snd (performSearch reply now (selectIndex index st))) ->
  exists l, In l listed
            /\ name index = display_name (listed_name l)
            /\ r = PostSearch (listed_name l) (searchQuery st) (searchSize st)
                    (textColumns (selectIndex index st)) (sessionId st).
Proof.
  intros Hi Hr. apply in_map_iff in Hi as (l & <- & Hl).
  exists l. split; [exact Hl|]. split; [reflexivity|].
  now destruct (performSearch_request _ _ _ _ Hr) as (-> & _).
Qed.

Lemma selectIndex_then_search_witness :
  exists l, In l listed0
            /\ "stock" = display_name (listed_name l)
            /\ PostSearch ("temp-" +:+ uuid0 +:+ "-stock") "madrid" (Num "10") [] (Some uuid0)
               = PostSearch (listed_name l) "madrid" (Num "10")
                   (textColumns
                      (selectIndex {| name := "stock";
                                      full_name := "temp-" +:+ uuid0 +:+ "-stock";
                                      columns := [] |} searching0))
                   (Some uuid0).
Proof.
  apply (selectIndex_then_search listed0
           {| name := "stock"; full_name := "temp-" +:+ uuid0 +:+ "-stock"; columns := [] |}
           (SearchThrew None) 0 searching0).
  - vm_compute. auto.
  - vm_compute. auto.
Defined.

(** ** Invariants of the runs *)

Lemma run_invariant (P : state -> Prop) :
  P data ->
  (forall e sys, P (fst sys) -> P (fst (step sys e))) ->
  forall events storage, P (fst (run events (data, storage))).
Proof.
  intros H0 Hs events storage.
  assert (G : forall sys, P (fst sys) -> P (fst (run events sys))).
  { induction events as [|e events IH]; intros sys H; [exact H|].
    rewrite run_cons. apply IH, Hs, H. }
  apply G. exact H0.
Qed.

Ltac plain x :=
  lazymatch x with
  | context [match _ with _ => _ end] => fail
  | context [if _ then _ else _] => fail
  | _ => idtac
  end.

Ltac by_cases :=
  repeat (cbv beta iota zeta;
          match goal with
          | |- context [if ?c then _ else _] => plain c; destruct c eqn:?
          | |- context [match ?x with _ => _ end] => plain x; destruct x eqn:?
          end).

Ltac frame_cases :=
  by_cases; simpl; split;
  try first [ left; reflexivity
        | left; split; reflexivity
        | right; left; split; reflexivity
        | right; exists []; reflexivity
        | right; eexists; reflexivity
        | right; right; eexists; split; reflexivity ].

(** What a step does to the parts of the data that only some methods write. *)
Lemma step_frames (e : event) (sys : state * gmap string string) :
  (indices (fst (step sys e)) = indices (fst sys)
   \/ exists listed, indices (fst (step sys e)) = List.map to_entry listed)
  /\ ((searchResults (fst (step sys e)) = searchResults (fst sys)
       /\ searchMetrics (fst (step sys e)) = searchMetrics (fst sys))
      \/ (searchResults (fst (step sys e)) = [] /\ searchMetrics (fst (step sys e)) = None)
      \/ exists d, searchResults (fst (step sys e)) = data_results d
                   /\ searchMetrics (fst (step sys e)) = Some d).
Proof.
  destruct sys as [st storage].
  destruct e; simpl;
    unfold mounted, initializeSession, handleFileSelect, uploadCSV, loadIndices,
      performSearch, performSearch_begin, performSearch_reply, updateChart;
    frame_cases.
Qed.

(** X11. In every state the page reaches, each entry of the list of indices
    carries the name to display for its full name. *)
Theorem indices_display_names (events : list event) (storage : gmap string string)
  (index : index_entry) :
  In index (indices (fst (run events (data, storage)))) ->
  name index = display_name (full_name index).
Proof.
  revert index.
  apply (run_invariant
           (fun st => forall i, In i (indices st) -> name i = display_name (full_name i))).
  - intros i [].
  - intros e sys H i. destruct (step_frames e sys) as [[-> | [listed ->]] _].
    + apply H.
    + intros Hi. apply in_map_iff in Hi as (l & <- & _). reflexivity.
Qed.

Lemma indices_display_names_witness :
  "sales" = display_name ("temp-" +:+ uuid0 +:+ "-sales").
Proof.
  apply (indices_display_names [PageLoad browser0 (IndicesDone listed0)] ∅
           {| name := "sales"; full_name := "temp-" +:+ uuid0 +:+ "-sales";
              columns := [ {| col_name := "city"; col_type := "text" |};
                           {| col_name := "amount"; col_type := "float" |};
                           {| col_name := "client"; col_type := "text" |} ] |}).
  vm_compute. auto.
Defined.

(** X12. In every state the page reaches, the results shown are those of the
    metrics shown: none before the first completed search, the documents of
    the last completed search afterwards. *)
Theorem results_match_metrics (events : list event) (storage : gmap string string) :
  searchResults (fst (run events (data, storage)))
  = match searchMetrics (fst (run events (data, storage))) with
    | Some d => data_results d
    | None => []
    end.
Proof.
  apply (run_invariant
           (fun st => searchResults st
                      = match searchMetrics st with Some d => data_results d | None => [] end)).
  - reflexivity.
  - intros e sys H. destruct (step_frames e sys) as [_ [[-> ->] | [[-> ->] | (d & -> & ->)]]].
    + exact H.
    + reflexivity.
    + reflexivity.
Qed.

Lemma step_session (e : event) (sys : state * gmap string string) :
  match e with
  | PageLoad _ _ =>
      sessionId (fst (step sys e)) = snd (step sys e) !! "userSessionId"
  | _ => sessionId (fst (step sys e)) = sessionId (fst sys) /\ snd (step sys e) = snd sys
  end.
Proof.
  destruct sys as [st storage]. destruct e; simpl; try (split; reflexivity).
  - unfold mounted.
    pose proof (initializeSession_session b data storage) as I.
    destruct (initializeSession b data storage) as [st1 storage1].
    destruct (loadIndices_form reply st1) as (_ & _ & L & _).
    destruct (loadIndices reply st1) as [st2 sent]. simpl in *. congruence.
  - split; [|reflexivity]. unfold handleFileSelect. by_cases; reflexivity.
  - split; [|reflexivity]. unfold uploadCSV.
    by_cases; try reflexivity.
    match goal with
    | H : loadIndices ?r ?s = (?s1, _) |- _ =>
        destruct (loadIndices_form r s) as (_ & _ & L & _); rewrite H in L; simpl in L
    end.
    simpl. exact L.
  - split; [|reflexivity]. now destruct (loadIndices_form reply st) as (_ & _ & L & _).
  - split; [|reflexivity].
    unfold performSearch, performSearch_begin, performSearch_reply. by_cases; reflexivity.
  - split; [|reflexivity]. unfold updateChart. by_cases; reflexivity.
  - split; [|reflexivity]. unfold performSearch_begin. by_cases; reflexivity.
  - split; [|reflexivity]. unfold performSearch_reply. by_cases; reflexivity.
Qed.

Lemma step_session_stored (e : event) (sys : state * gmap string string) :
  session_stored sys -> session_stored (step sys e).
Proof.
  intros H. pose proof (step_session e sys) as S. unfold session_stored in *.
  destruct e; [now right | ..]; destruct S as [E1 E2]; rewrite E1, E2; exact H.
Qed.

Lemma performSearch_begin_request (st : state) (r : request) :
  In r (snd (performSearch_begin st)) ->
  r = PostSearch (selectedIndex st) (searchQuery st) (searchSize st) (textColumns st)
                 (sessionId st)
  /\ Js.truthy_opt (sessionId st) = true
  /\ selectedIndex st <> ""
  /\ Js.trim (searchQuery st) <> ""
  /\ sessionId (fst (performSearch_begin st)) = sessionId st.
Proof.
  unfold performSearch_begin.
  destruct (Js.truthy_opt (sessionId st)) eqn:S; simpl; [|tauto].
  destruct (Js.truthy (selectedIndex st)) eqn:I; simpl; [|tauto].
  destruct (Js.truthy (Js.trim (searchQuery st))) eqn:Q; simpl; [|tauto].
  intros [<-|[]]. apply truthy_true in I, Q. auto.
Qed.

Lemma sent_by_ok (e : event) (sys : state * gmap string string) (r : request) :
  In r (sent_by sys e) ->
  request_ok r = true /\ session_of r = sessionId (fst (step sys e)).
Proof.
  pose proof (step_session e sys) as S.
  destruct sys as [st storage]. destruct e; simpl in *; try tauto.
  - unfold mounted in *.
    destruct (initializeSession b data storage) as [st1 storage1].
    pose proof (loadIndices_sent reply st1 r) as L.
    destruct (loadIndices_form reply st1) as (_ & _ & F & _).
    destruct (loadIndices reply st1) as [st2 sent]. simpl in *.
    intros Hr. destruct (L Hr) as [-> T]. rewrite F. simpl. auto.
  - destruct S as [-> _]. intros Hr.
    assert (Hne : snd (uploadCSV reply reloaded st) <> []) by (intros E; now rewrite E in Hr).
    destruct (uploadCSV_guards _ _ _ Hne) as (Sx & [fl F] & T).
    destruct reply as [detail | c t].
    + rewrite (uploadCSV_failed detail reloaded st fl Sx F T) in Hr.
      destruct Hr as [<- | []]. simpl. now rewrite T, Sx.
    + destruct (uploadCSV_done c t reloaded st fl Sx F T)
        as (st1 & sent1 & E & _ & _ & _ & G).
      rewrite E in Hr. destruct Hr as [<- | Hr]; [simpl; now rewrite T, Sx|].
      rewrite (G r Hr). simpl. auto.
  - destruct S as [-> _]. intros Hr. destruct (loadIndices_sent reply st r Hr) as [-> T].
    simpl. auto.
  - destruct S as [-> _]. intros Hr.
    destruct (performSearch_request reply now st r Hr) as (-> & Sx & I & Q).
    apply truthy_true in I, Q. simpl. now rewrite I, Q, Sx.
  - intros Hr.
    destruct (performSearch_begin_request st r Hr) as (-> & Sx & I & Q & E).
    rewrite E. apply truthy_true in I, Q. simpl. now rewrite I, Q, Sx.
Qed.

Lemma request_ok_session (r : request) :
  request_ok r = true -> Js.truthy_opt (session_of r) = true.
Proof.
  destruct r; simpl; intros H; repeat (apply andb_true_iff in H as [H ?]); assumption.
Qed.

(** X14. Every request that a run of the page sends carries a session that is
    not empty, the token that [sessionStorage] holds at the end of the run;
    an upload has a name for its index, a search an index and a query that is
    not blank. *)
Theorem requests_carry_token (events : list event) (storage : gmap string string)
  (r : request) :
  In r (trace events (data, storage)) ->
  request_ok r = true
  /\ session_of r = snd (run events (data, storage)) !! "userSessionId".
Proof.
  assert (G : forall sys, session_stored sys -> In r (trace events sys) ->
                request_ok r = true
                /\ session_of r = snd (run events sys) !! "userSessionId").
  { induction events as [|e events IH]; intros sys Hs Hr; [destruct Hr|].
    simpl in Hr. rewrite run_cons. apply in_app_or in Hr as [Hr | Hr].
    - destruct (sent_by_ok e sys r Hr) as [Ok E]. split; [exact Ok|].
      pose proof (request_ok_session r Ok) as T. rewrite E in T |- *.
      destruct (step_session_stored e sys Hs) as [N | St]; [now rewrite N in T|].
      destruct (step sys e) as [st1 storage1]. simpl in *.
      rewrite St in T |- *.
      destruct (storage1 !! "userSessionId") as [t|] eqn:K; [|discriminate].
      simpl in T. apply truthy_true in T.
      now rewrite (run_keeps_token events st1 storage1 t K T).
    - apply IH; [now apply step_session_stored | exact Hr]. }
  apply G. now left.
Qed.

Lemma requests_carry_token_witness :
  request_ok (GetIndices (Some uuid0)) = true
  /\ session_of (GetIndices (Some uuid0))
     = snd (run (searches ["a"; "b"]) (data, ∅)) !! "userSessionId".
Proof.
  apply (requests_carry_token (searches ["a"; "b"]) ∅ (GetIndices (Some uuid0))).
  vm_compute. auto.
Defined.

Lemma imap_labels {A : Type} (g : nat -> string) (l : list A) :
  imap (fun i _ => g i) l = List.map g (seq 0 (length l)).
Proof.
  revert g. induction l as [|x l IH]; intros g; [reflexivity|].
  simpl. f_equal. rewrite <- seq_shift, List.map_map. apply (IH (fun i => g (S i))).
Qed.

Lemma step_chart (e : event) (sys : state * gmap string string) :
  chart (fst (step sys e)) = chart (fst sys)
  \/ chart (fst (step sys e)) = None
  \/ (searchHistory (fst sys) <> []
      /\ chart (fst (step sys e))
         = Some {| labels := List.map point_label (seq 0 (length (searchHistory (fst sys))));
                   chart_data := List.map time (searchHistory (fst sys)) |}).
Proof.
  destruct sys as [st storage]. destruct e; simpl.
  7: { unfold updateChart. destruct (searchHistory st) as [|h0 h] eqn:H; [now left|].
       destruct ctx; [|now left]. right; right. split; [discriminate|].
       rewrite <- (imap_labels point_label (h0 :: h)). reflexivity. }
  all: unfold mounted, initializeSession, handleFileSelect, uploadCSV, loadIndices,
         performSearch, performSearch_begin, performSearch_reply;
       by_cases; simpl; first [left; reflexivity | right; left; reflexivity].
Qed.

(** X15. The chart, when there is one, plots between 1 and 10 searches, labelled
    [#1], [#2], ... in order; [updateChart] with a drawing context plots the
    times of the whole history. *)
Theorem chart_points (events : list event) (storage : gmap string string) :
  (forall c, chart (fst (run events (data, storage))) = Some c ->
     (1 <= length (chart_data c) <= 10)%nat
     /\ labels c = List.map point_label (seq 0 (length (chart_data c))))
  /\ (searchHistory (fst (run events (data, storage))) <> [] ->
      chart (updateChart true (fst (run events (data, storage))))
      = Some {| labels := List.map point_label
                            (seq 0 (length (searchHistory (fst (run events (data, storage))))));
                chart_data := List.map time
                                (searchHistory (fst (run events (data, storage)))) |}).
Proof.
  split.
  - assert (G : (length (searchHistory (fst (run events (data, storage)))) <= 10)%nat
                /\ forall c, chart (fst (run events (data, storage))) = Some c ->
                     (1 <= length (chart_data c) <= 10)%nat
                     /\ labels c = List.map point_label (seq 0 (length (chart_data c))));
      [|exact (proj2 G)].
    apply (run_invariant
             (fun st => (length (searchHistory st) <= 10)%nat
                        /\ forall c, chart st = Some c ->
                             (1 <= length (chart_data c) <= 10)%nat
                             /\ labels c
                                = List.map point_label (seq 0 (length (chart_data c))))).
    + split; [simpl; lia | discriminate].
    + intros e sys [Hh Hc]. split; [now apply step_capped|].
      destruct (step_chart e sys) as [-> | [-> | [Hne ->]]]; [exact Hc | discriminate |].
      intros c [= <-]. simpl. rewrite length_map. split; [|reflexivity].
      destruct (searchHistory (fst sys)); [congruence | simpl in *; lia].
  - generalize (fst (run events (data, storage))). intros st Hne.
    unfold updateChart. destruct (searchHistory st) as [|h0 h]; [congruence|].
    rewrite <- (imap_labels point_label (h0 :: h)). reflexivity.
Qed.

Lemma chart_points_witness :
  chart (updateChart true (fst (run (searches ["a"; "b"]) (data, ∅))))
  = Some {| labels := ["#1"; "#2"]; chart_data := [Num "0.012"; Num "0.012"] |}.
Proof.
  rewrite (proj2 (chart_points (searches ["a"; "b"]) ∅)).
  - vm_compute. reflexivity.
  - vm_compute. discriminate.
Defined.

(** ** The unit of a file size, between the powers of 1024 *)

Section FileSizeUnits.

Local Open Scope R_scope.

Lemma Math_floor_eq (q : R) (k : Z) : IZR k <= q < IZR k + 1 -> Math_floor q = k.
Proof.
  intros [H0 H1]. unfold Math_floor.
  destruct (base_Int_part q) as [B1 B2].
  assert (A : (k - 1 < Int_part q)%Z) by (apply lt_IZR; rewrite minus_IZR; lra).
  assert (B : (Int_part q < k + 1)%Z) by (apply lt_IZR; rewrite plus_IZR; lra).
  lia.
Qed.

Lemma ln_above (eps : R) : 0 < eps -> eps / (1 + eps) <= ln (1 + eps).
Proof.
  intros H.
  assert (P : 0 < eps / (1 + eps) < 1).
  { split; [apply Rdiv_lt_0_compat; lra|].
    apply Rmult_lt_reg_r with (1 + eps); [lra|]. unfold Rdiv.
    rewrite Rmult_assoc, Rinv_l by lra. lra. }
  pose proof (ln_below _ P) as B.
  replace (1 - eps / (1 + eps)) with (/ (1 + eps)) in B by (field; lra).
  rewrite ln_Rinv in B by lra. lra.
Qed.

(** The logarithm of a count just above, or just below, a power of two. *)
Lemma ln_over_power (p : nat) (x : R) :
  2 ^ p + 1 <= x -> INR p * ln 2 + / 2 ^ (p + 1) <= ln x.
Proof.
  intros H. assert (P : 0 < 2 ^ p) by (apply pow_lt; lra).
  apply Rle_trans with (ln (2 ^ p + 1)); [|apply ln_le; lra].
  replace (2 ^ p + 1) with (2 ^ p * (1 + / 2 ^ p)) by (field; lra).
  assert (E : 0 < / 2 ^ p) by now apply Rinv_0_lt_compat.
  rewrite ln_mult; [|lra|lra]. rewrite ln_pow by lra.
  pose proof (ln_above (/ 2 ^ p) E) as A.
  assert (Q : / 2 ^ (p + 1) <= / 2 ^ p / (1 + / 2 ^ p)).
  { replace (/ 2 ^ p / (1 + / 2 ^ p)) with (/ (2 ^ p + 1)) by (field; lra).
    apply Rinv_le_contravar; [lra|]. rewrite pow_add. simpl.
    assert (1 <= 2 ^ p) by (apply pow_R1_Rle; lra). lra. }
  lra.
Qed.

Lemma ln_under_power (p : nat) (x : R) :
  0 < x <= 2 ^ p - 1 -> ln x <= INR p * ln 2 - / 2 ^ p.
Proof.
  intros [H0 H]. assert (P : 0 < 2 ^ p) by (apply pow_lt; lra).
  assert (P1 : 1 < 2 ^ p) by lra.
  apply Rle_trans with (ln (2 ^ p - 1)); [apply ln_le; lra|].
  replace (2 ^ p - 1) with (2 ^ p * (1 - / 2 ^ p)) by (field; lra).
  assert (E : 0 < / 2 ^ p < 1).
  { split; [now apply Rinv_0_lt_compat|]. rewrite <- Rinv_1. apply Rinv_lt_contravar; lra. }
  rewrite ln_mult; [|lra|lra]. rewrite ln_pow by lra.
  pose proof (ln_below (/ 2 ^ p) E). lra.
Qed.


Lemma quotient_between (Math_log : R -> R) (divide : R -> R -> R) (bound n : Z) (k : nat) :
  accurate_log_to bound Math_log -> accurate_division divide ->
  (1024 <= bound)%Z -> (1 <= n <= bound)%Z -> (k <= 4)%nat ->
  (n = 1%Z /\ k = 0%nat) \/ INR k * (10 * ln 2) + / 2 ^ 41 <= ln (IZR n) ->
  ln (IZR n) <= INR (k + 1) * (10 * ln 2) - / 2 ^ 41 ->
  INR k <= divide (Math_log (IZR n)) (Math_log 1024) < INR k + 1.
Proof.
  intros log_ok divide_ok Hb Hn Hk Lo Hi.
  pose proof ln_lt_2 as A1. pose proof ln_2_lt_1 as A2.
  set (x := IZR n) in *.
  assert (X1 : 1 <= x) by (apply IZR_le; lia).
  assert (L0 : 0 <= ln x) by (rewrite <- ln_1; apply ln_le; lra).
  assert (M1 : ln x * (1 - log_error) <= Math_log x <= ln x * (1 + log_error)).
  { pose proof (Rabs_between _ _ _ (log_ok n Hn)) as H. fold x in H. lra. }
  assert (M2 : 10 * ln 2 * (1 - log_error) <= Math_log 1024 <= 10 * ln 2 * (1 + log_error)).
  { pose proof (Rabs_between _ _ _ (log_ok 1024%Z ltac:(lia))) as H.
    rewrite ln_1024 in H. lra. }
  unfold log_error in *.
  assert (Y : 1 <= Math_log 1024 <= 16) by lra.
  assert (K : INR (k + 1) = INR k + 1) by (rewrite plus_INR; simpl; lra).
  assert (K4 : 0 <= INR k <= 4).
  { split; [apply pos_INR|]. apply le_INR in Hk. simpl in Hk. lra. }
  assert (X : Math_log x = 0 \/ / 4 <= Math_log x <= 64).
  { destruct (Z.eq_dec n 1%Z) as [E | Hne].
    - left. unfold x in *. rewrite E in *. rewrite ln_1 in M1. lra.
    - right. assert (2 <= x) by (apply IZR_le; lia).
      assert (ln 2 <= ln x) by (apply ln_le; lra). nra. }
  pose proof (Rabs_between _ _ _ (divide_ok _ _ X Y)) as Q.
  unfold division_error in Q.
  set (q := Math_log x / Math_log 1024) in *.
  assert (Q0 : 0 <= q).
  { unfold q. apply Rmult_le_pos; [nra|]. left. apply Rinv_0_lt_compat. lra. }
  assert (Q1 : q * (1 + / 2 ^ 53) < INR k + 1).
  { apply Rmult_lt_reg_r with (Math_log 1024); [lra|].
    replace (q * (1 + / 2 ^ 53) * Math_log 1024) with (Math_log x * (1 + / 2 ^ 53))
      by (unfold q; field; lra).
    rewrite K in Hi.
    do 5 (destruct k as [|k]; [simpl in *; nra|]). lia. }
  assert (Q2 : INR k <= q * (1 - / 2 ^ 53)).
  { destruct Lo as [[E ->] | Lo]; [simpl; nra|].
    apply Rmult_le_reg_r with (Math_log 1024); [lra|].
    replace (q * (1 - / 2 ^ 53) * Math_log 1024) with (Math_log x * (1 - / 2 ^ 53))
      by (unfold q; field; lra).
    do 5 (destruct k as [|k]; [simpl in *; nra|]). lia. }
  split; nra.
Qed.

(** The index of a count strictly between two powers of 1024. *)
Lemma unit_index_at (Math_log : R -> R) (divide : R -> R -> R) (bound n : Z) (k : nat) :
  accurate_log_to bound Math_log -> accurate_division divide ->
  (1024 <= bound)%Z -> (1 <= n <= bound)%Z ->
  (n = 1%Z /\ k = 0%nat) \/ 2 ^ (10 * k) + 1 <= IZR n ->
  (IZR n <= 2 ^ (10 * (k + 1)) - 1 /\ (k <= 3)%nat) \/ (k = 4%nat /\ IZR n <= 2 ^ 49) ->
  Math_floor (divide (Math_log (IZR n)) (Math_log 1024)) = Z.of_nat k.
Proof.
  intros Hl Hd Hb Hn Lo Hi. apply Math_floor_eq. rewrite <- INR_IZR_INZ.
  pose proof ln_lt_2 as A1. pose proof ln_2_lt_1 as A2.
  assert (Hk : (k <= 4)%nat) by (destruct Hi as [[_ H] | [-> _]]; lia).
  assert (X1 : 0 < IZR n) by (apply IZR_lt; lia).
  apply (quotient_between Math_log divide bound n k Hl Hd Hb Hn Hk).
  - destruct Lo as [Lo | Lo]; [now left | right].
    pose proof (ln_over_power (10 * k) (IZR n) Lo) as B.
    do 5 (destruct k as [|k]; [simpl in B |- *; lra|]). lia.
  - destruct Hi as [[Hi K3] | [-> Hi]].
    + pose proof (ln_under_power (10 * (k + 1)) (IZR n) (conj X1 Hi)) as B.
      do 4 (destruct k as [|k]; [simpl in B |- *; lra|]). lia.
    + assert (B : ln (IZR n) <= ln (2 ^ 49)) by (apply ln_le; lra).
      rewrite ln_pow in B by lra. simpl in B |- *. lra.
Qed.

Ltac numerals H :=
  match type of H with
  | (?a < _ < ?b)%N =>
      let a' := eval vm_compute in a in
      let b' := eval vm_compute in b in
      change a with a' in H; change b with b' in H
  end.

(** X16. With the arithmetic as accurate as stated, a count strictly between
    two powers of 1024 (and the count 1) gets the unit of the lower power:
    Bytes below 1024, KB below [1024^2], MB below [1024^3], GB below
    [1024^4]. *)
Theorem formatFileSize_unit_between (Math_log : R -> R) (divide : R -> R -> R)
  (scaled_text : N -> Z -> string) (k : nat) (bytes : N) (unit : string) :
  accurate_log Math_log -> accurate_division divide ->
  sizes !! k = Some unit ->
  (1024 ^ N.of_nat k < bytes < 1024 ^ N.of_nat (k + 1))%N \/ (bytes = 1%N /\ k = 0%nat) ->
  unit_index Math_log divide bytes = Z.of_nat k
  /\ formatFileSize Math_log divide scaled_text bytes
     = scaled_text bytes (Z.of_nat k) +:+ " " +:+ unit.
Proof.
  intros Hl Hd Hu Hr.
  assert (I : unit_index Math_log divide bytes = Z.of_nat k).
  { unfold unit_index.
    apply (unit_index_at Math_log divide (2 ^ 40)%Z (Z.of_N bytes) k Hl Hd); [lia | | |].
    - destruct Hr as [Hr | [-> ->]]; [|lia].
      do 4 (destruct k as [|k]; [numerals Hr; lia|]). discriminate Hu.
    - destruct Hr as [Hr | [-> ->]]; [right | left; split; reflexivity].
      do 4 (destruct k as [|k];
            [numerals Hr;
             match type of Hr with
             | (?lo < _ < _)%N =>
                 assert (Hz : (Z.of_N lo + 1 <= Z.of_N bytes)%Z) by lia
             end;
             apply IZR_le in Hz; rewrite plus_IZR in Hz; simpl in Hz |- *; lra|]).
      discriminate Hu.
    - left. destruct Hr as [Hr | [-> ->]]; [|split; [simpl; lra | lia]].
      do 4 (destruct k as [|k];
            [split; [|lia]; numerals Hr;
             match type of Hr with
             | (_ < _ < ?hi)%N =>
                 assert (Hz : (Z.of_N bytes <= Z.of_N hi - 1)%Z) by lia
             end;
             apply IZR_le in Hz; rewrite minus_IZR in Hz; simpl in Hz |- *; lra|]).
      discriminate Hu. }
  split; [exact I|].
  unfold formatFileSize. destruct (N.eqb_spec bytes 0) as [-> | _].
  - exfalso. destruct Hr as [[Hr _] | [Hr _]]; [|discriminate].
    now apply N.nlt_0_r in Hr.
  - cbv zeta. rewrite I.
    do 4 (destruct k as [|k]; [injection Hu as <-; reflexivity|]). discriminate Hu.
Qed.

Lemma formatFileSize_unit_between_witness :
  formatFileSize ln Rdiv (fun _ _ => "1.5") 1536%N = "1.5 KB".
Proof.
  apply (formatFileSize_unit_between ln Rdiv (fun _ _ => "1.5") 1%nat 1536%N "KB"
           accurate_log_ln accurate_division_Rdiv eq_refl).
  left. vm_compute. auto.
Defined.

(** X17. Above [1024^4] the array of units is left: for a count over [1024^4],
    up to [2^49], the index is 4 and the text ends with [undefined]. *)
Theorem formatFileSize_beyond_units (Math_log : R -> R) (divide : R -> R -> R)
  (scaled_text : N -> Z -> string) (bytes : N) :
  accurate_log_to (2 ^ 49) Math_log -> accurate_division divide ->
  (1024 ^ 4 < bytes <= 2 ^ 49)%N ->
  unit_index Math_log divide bytes = 4%Z
  /\ element sizes (unit_index Math_log divide bytes) = None
  /\ formatFileSize Math_log divide scaled_text bytes
     = scaled_text bytes 4%Z +:+ " undefined".
Proof.
  intros Hl Hd [H1 H2].
  assert (Z1 : (1099511627776 + 1 <= Z.of_N bytes)%Z).
  { change (1024 ^ 4)%N with 1099511627776%N in H1. lia. }
  assert (Z2 : (Z.of_N bytes <= 562949953421312)%Z).
  { change (2 ^ 49)%N with 562949953421312%N in H2. lia. }
  assert (I : unit_index Math_log divide bytes = 4%Z).
  { unfold unit_index.
    apply (unit_index_at Math_log divide (2 ^ 49)%Z (Z.of_N bytes) 4%nat Hl Hd); [lia | lia | |].
    - right. apply IZR_le in Z1. rewrite plus_IZR in Z1. simpl. lra.
    - right. split; [reflexivity|]. apply IZR_le in Z2. lra. }
  rewrite I. split; [reflexivity|]. split; [reflexivity|].
  unfold formatFileSize. destruct (N.eqb_spec bytes 0) as [-> | _]; [lia|].
  cbv zeta. now rewrite I.
Qed.

Lemma accurate_log_to_ln (bound : Z) : accurate_log_to bound ln.
Proof.
  intros n Hn. replace (ln (IZR n) - ln (IZR n)) with 0 by lra. rewrite Rabs_R0.
  apply Rmult_le_pos.
  - unfold log_error. left. apply Rinv_0_lt_compat. lra.
  - rewrite <- ln_1. apply ln_le; [lra|]. apply IZR_le. lia.
Qed.

Lemma formatFileSize_beyond_units_witness :
  formatFileSize ln Rdiv (fun _ _ => "2") 2199023255552%N = "2 undefined".
Proof.
  apply (formatFileSize_beyond_units ln Rdiv (fun _ _ => "2") 2199023255552%N
           (accurate_log_to_ln _) accurate_division_Rdiv).
  vm_compute. split; [reflexivity | discriminate].
Defined.

End FileSizeUnits.

(** X18. The pattern of [loadIndices] accepts the tokens of [generateUUID]: an
    index listed as [temp-<token>-<rest>] for a generated token is displayed
    as [rest]. *)
Theorem generated_token_is_stripped (b : browser) (rest : string) :
  (forall u, randomUUID b = Some u -> uuid_shaped u = true) ->
  (forall k, (draws b k < 16)%N) ->
  name (to_entry {| listed_name := "temp-" +:+ generateUUID b +:+ "-" +:+ rest;
                    listed_columns := [] |}) = rest.
Proof.
  intros Hc Hd. simpl. apply (display_name_strips (generateUUID b) rest).
  now apply generateUUID_shaped.
Qed.

Lemma generated_token_is_stripped_witness :
  name (to_entry {| listed_name := "temp-" +:+ generateUUID browser0 +:+ "-" +:+ "sales";
                    listed_columns := [] |}) = "sales".
Proof.
  apply (generated_token_is_stripped browser0 "sales").
  - discriminate.
  - intros k. simpl. apply N.mod_lt. discriminate.
Defined.

(** X19. Loading the page sends one request, the list of indices, for the
    token that the storage holds from then on. *)
Theorem mounted_requests (b : browser) (reply : indices_reply) (st : state)
  (storage : gmap string string) :
  generateUUID b <> "" ->
  exists t, t <> ""
    /\ snd (mounted b reply st storage) = [GetIndices (Some t)]
    /\ snd (fst (mounted b reply st storage)) !! "userSessionId" = Some t
    /\ sessionId (fst (fst (mounted b reply st storage))) = Some t
    /\ (Js.truthy_opt (storage !! "userSessionId") = true ->
        storage !! "userSessionId" = Some t
        /\ snd (fst (mounted b reply st storage)) = storage).
Proof.
  intros Hg. unfold mounted.
  destruct (initializeSession_token b st storage Hg) as (t & Ht & Hs & Hi).
  assert (Hr : Js.truthy_opt (storage !! "userSessionId") = true ->
               storage !! "userSessionId" = Some t
               /\ snd (initializeSession b st storage) = storage).
  { intros T. destruct (storage !! "userSessionId") as [t0|] eqn:K; [|discriminate].
    simpl in T. apply truthy_true in T.
    rewrite (initializeSession_reuses b st storage t0 K T) in Hs |- *. simpl in *.
    split; [congruence | reflexivity]. }
  destruct (initializeSession b st storage) as [st1 storage1]. simpl in *.
  pose proof (loadIndices_sends reply st1) as L.
  destruct (loadIndices_form reply st1) as (_ & _ & F & _).
  destruct (loadIndices reply st1) as [st2 sent]. simpl in *.
  exists t. rewrite Hi in L, F. simpl in L.
  apply truthy_true in Ht. rewrite Ht in L. apply truthy_true in Ht. auto.
Qed.

Lemma mounted_requests_witness :
  exists t, t <> ""
    /\ snd (mounted browser0 IndicesFailed data ∅) = [GetIndices (Some t)]
    /\ snd (fst (mounted browser0 IndicesFailed data ∅)) !! "userSessionId" = Some t
    /\ sessionId (fst (fst (mounted browser0 IndicesFailed data ∅))) = Some t
    /\ (Js.truthy_opt ((∅ : gmap string string) !! "userSessionId") = true ->
        (∅ : gmap string string) !! "userSessionId" = Some t
        /\ snd (fst (mounted browser0 IndicesFailed data ∅)) = ∅).
Proof.
  apply (mounted_requests browser0 IndicesFailed data ∅). vm_compute. discriminate.
Defined.

Lemma last_remember (e : history_entry) (h : list history_entry) :
  last (remember e h) = Some e.
Proof.
  destruct h as [|x h]; [reflexivity|].
  unfold remember. destruct (_ <? _)%nat; [simpl|]; apply last_snoc.
Qed.

(** X20. When the reply of a search that the server accepted is handled, the
    documents and the metrics shown are those of the reply, under a success
    alert and with the searching flag off, and the entry added at the end of
    the history records the query that the form holds at that moment, with
    the time and the total of the reply; neither the form nor
    [lastSearchQuery] is touched.  So when the query is edited while the
    request is in flight, the request and [lastSearchQuery] carry the query
    that was sent and the history records the edited one. *)
Theorem performSearch_completed (d : search_data) (now : Z) (st : state) :
  searchResults (performSearch_reply (SearchDone d) now st) = data_results d
  /\ searchMetrics (performSearch_reply (SearchDone d) now st) = Some d
  /\ last (searchHistory (performSearch_reply (SearchDone d) now st))
     = Some {| query := searchQuery st; time := search_time_seconds d;
               results := total_results d; timestamp := now |}
  /\ searchQuery (performSearch_reply (SearchDone d) now st) = searchQuery st
  /\ lastSearchQuery (performSearch_reply (SearchDone d) now st) = lastSearchQuery st
  /\ type (alert (performSearch_reply (SearchDone d) now st)) = "success"
  /\ searching (performSearch_reply (SearchDone d) now st) = false
  /\ (forall sent typed,
        st = set_searchQuery typed (fst (performSearch_begin sent)) ->
        snd (performSearch_begin sent) <> [] ->
        snd (performSearch_begin sent)
        = [PostSearch (selectedIndex sent) (searchQuery sent) (searchSize sent)
             (textColumns sent) (sessionId sent)]
        /\ lastSearchQuery (performSearch_reply (SearchDone d) now st) = searchQuery sent
        /\ last (searchHistory (performSearch_reply (SearchDone d) now st))
           = Some {| query := typed; time := search_time_seconds d;
                     results := total_results d; timestamp := now |}).
Proof.
  assert (L : last (searchHistory (performSearch_reply (SearchDone d) now st))
              = Some {| query := searchQuery st; time := search_time_seconds d;
                        results := total_results d; timestamp := now |}).
  { rewrite performSearch_reply_history. apply last_remember. }
  repeat (split; [first [exact L | reflexivity]|]).
  intros sent typed E Hs. rewrite L. subst st.
  unfold performSearch_begin in *.
  destruct (negb (Js.truthy_opt (sessionId sent))); [simpl in Hs; congruence|].
  destruct (negb (Js.truthy (selectedIndex sent))
            || negb (Js.truthy (Js.trim (searchQuery sent))));
    [simpl in Hs; congruence|].
  repeat split.
Qed.

Lemma performSearch_completed_witness :
  last (searchHistory
          (performSearch_reply (SearchDone found0) 7
             (set_searchQuery "" (fst (performSearch_begin searching0)))))
  = Some {| query := ""; time := Num "0.012"; results := Num "1"; timestamp := 7 |}.
Proof.
  destruct (performSearch_completed found0 7
              (set_searchQuery "" (fst (performSearch_begin searching0))))
    as (_ & _ & _ & _ & _ & _ & _ & H).
  destruct (H searching0 "" eq_refl) as (_ & _ & E); [vm_compute; discriminate|].
  exact E.
Defined.
